(** * ManageEIPs: the Lambda handler of [lambda_function.py]

    A shallow embedding of [lambda_function.py] and the properties of its
    reconciliation loop: tag lookup, dry-run resolution, the per-address
    decision, the error handlers and the run counters. *)

From Stdlib Require Import ZArith String Ascii DecimalString.
From stdpp Require Import base decidable option list strings gmap.

Local Open Scope string_scope.
Local Open Scope list_scope.

#[local] Set Warnings "-register-all".

(** ** Python values and strings *)

(** The values an invocation payload can hold under the key [dry_run] that
    this model covers: [None], booleans, integers and strings.  (The [str] of
    a float, a list or a dict starts with a digit, a sign, a bracket or a
    brace, or is [nan]/[inf]; none of them lowers to "true".) *)
Inductive pyval : Type :=
| PyNone
| PyBool (b : bool)
| PyInt (z : Z)
| PyStr (s : string).

(** [str(v)]. *)
Definition py_str (v : pyval) : string :=
  match v with
  | PyNone => "None"
  | PyBool true => "True"
  | PyBool false => "False"
  | PyInt z => NilZero.string_of_int (Z.to_int z)
  | PyStr s => s
  end.

(** [c.lower()] on one character.  Strings are byte strings here; the letters
    [A]..[Z] are the only bytes [str.lower] changes into ASCII letters of
    "true" (no character outside ASCII lowers to [t], [r], [u] or [e]). *)
Definition lower_ascii (c : ascii) : ascii :=
  let n := N_of_ascii c in
  if ((65 <=? n) && (n <=? 90))%N then ascii_of_N (n + 32) else c.

(** [s.lower()]. *)
Fixpoint lower (s : string) : string :=
  match s with
  | EmptyString => EmptyString
  | String c s' => String (lower_ascii c) (lower s')
  end.

(** ** Configuration read at the start of a run *)

(** [os.getenv(key, default)]. *)
Definition getenv (env : gmap string string) (key default : string) : string :=
  match env !! key with
  | Some v => v
  | None => default
  end.

(** [event.get(key, default)]. *)
Definition event_get (event : gmap string pyval) (key : string) (default : pyval) : pyval :=
  match event !! key with
  | Some v => v
  | None => default
  end.

(** Line 79:
    [str(event.get("dry_run", os.getenv("DRY_RUN", "false"))).lower() == "true"]. *)
Definition dry_run_of (event : gmap string pyval) (env : gmap string string) : bool :=
  String.eqb
    (lower (py_str (event_get event "dry_run" (PyStr (getenv env "DRY_RUN" "false")))))
    "true".

(** Line 91: [str(os.getenv("METRICS_ENABLED", "true")).lower() == "true"]. *)
Definition metrics_enabled_of (env : gmap string string) : bool :=
  String.eqb (lower (py_str (PyStr (getenv env "METRICS_ENABLED" "true")))) "true".

(** ** Tags *)

(** One entry of an AWS [Tags] list, a dict read with [.get]: either member
    may be missing. *)
Record Tag : Type := mkTag { Key : option string; Value : option string }.

(** The [for] loop of [_get_tag_value]: return at the first tag whose key
    matches. *)
Fixpoint scan_tags (tags : list Tag) (key : string) : option string :=
  match tags with
  | [] => None
  | t :: rest => if decide (Key t = Some key) then Value t else scan_tags rest key
  end.

(** [_get_tag_value(tags, key)]; [tags] may be [None]. *)
Definition _get_tag_value (tags : option (list Tag)) (key : string) : option string :=
  match tags with
  | None => None
  | Some [] => None
  | Some l => scan_tags l key
  end.

(** ** Output lines *)

(** What [json.dumps] is given.  A dict is kept as its items in insertion
    order. *)
Inductive json : Type :=
| JNull
| JBool (b : bool)
| JNum (z : Z)
| JStr (s : string)
| JArr (items : list json)
| JObj (members : list (string * json)).

Definition dict : Type := list (string * json).

(** [d[k] = v]: an existing key keeps its place and takes the new value. *)
Fixpoint dict_set (k : string) (v : json) (d : dict) : dict :=
  match d with
  | [] => [(k, v)]
  | (k', v') :: d' => if String.eqb k' k then (k', v) :: d' else (k', v') :: dict_set k v d'
  end.

(** [{**d, **extra}]. *)
Definition dict_update (d extra : dict) : dict :=
  fold_left (fun acc kv => dict_set kv.1 kv.2 acc) extra d.

(** [d.get(k)]. *)
Fixpoint dict_get (k : string) (d : dict) : option json :=
  match d with
  | [] => None
  | (k', v) :: d' => if String.eqb k' k then Some v else dict_get k d'
  end.

Definition json_of_opt_str (o : option string) : json :=
  match o with
  | Some s => JStr s
  | None => JNull
  end.

Definition json_of_nat (n : nat) : json := JNum (Z.of_nat n).

(** ** Exceptions *)

(** The [Error] member of a botocore error response. *)
Record ErrorDict : Type := mkErrorDict { Code : option string }.

(** [e.response]. *)
Record Response : Type := mkResponse { Error : option ErrorDict }.

(** What can be raised while an address is processed: a botocore
    [ClientError], another [Exception] (with [type(e).__name__]), or a
    [BaseException] that is no [Exception].  The string is [str(e)]. *)
Inductive exn : Type :=
| ClientError (response : Response) (message : string)
| PyException (type_name message : string)
| PyBaseException (type_name message : string).

(** [str(e)]. *)
Definition exn_str (e : exn) : string :=
  match e with
  | ClientError _ m => m
  | PyException _ m => m
  | PyBaseException _ m => m
  end.

(** [e.response.get("Error", {}).get("Code", "Unknown")]. *)
Definition error_code (r : Response) : string :=
  match Error r with
  | None => "Unknown"
  | Some err =>
      match Code err with
      | None => "Unknown"
      | Some c => c
      end
  end.

(** The set literal of lines 191-199. *)
Definition FATAL_CODES : gset string :=
  {[ "AccessDenied"; "AccessDeniedException"; "UnauthorizedOperation";
     "UnrecognizedClientException"; "InvalidClientTokenId";
     "SignatureDoesNotMatch"; "ExpiredToken" ]}.

(** ** The addresses *)

(** One [ec2.VpcAddress] as the loop sees it.  [allocation_id] is the
    resource identifier, held by the object itself.  [tags] is what
    [getattr(elastic_ip, "tags", None)] does: it gives the attribute, [None]
    when the attribute is [None] or missing ([getattr] takes an
    [AttributeError], of any subclass, for a missing attribute), or lets
    through another exception.  [instance_id] is what reading the attribute
    does and [release] what calling [release()] does. *)
Record VpcAddress : Type := mkVpcAddress {
  allocation_id : string;
  tags : exn + option (list Tag);
  instance_id : exn + option string;
  release : exn + unit
}.

(** The Lambda context object. *)
Record Context : Type := mkContext { function_name : string; aws_request_id : string }.

(** ** State *)

(** The seven counters of lines 112-118. *)
Record Counters : Type := mkCounters {
  scanned : nat;
  skipped_not_managed : nat;
  skipped_protected : nat;
  associated : nat;
  would_release : nat;
  released : nat;
  per_eip_errors : nat
}.

(** The state a run threads: the counters (locals of [lambda_handler]), the
    lines printed to standard output (oldest first), and the allocation ids
    [release()] was called on (oldest first). *)
Record State : Type := mkState {
  counters : Counters;
  stdout : list json;
  release_calls : list string
}.

Definition zero_counters : Counters := mkCounters 0 0 0 0 0 0 0.

Definition initial_state : State := mkState zero_counters [] [].

(** The six buckets an address can be counted in, next to [scanned]. *)
Inductive bucket : Type :=
| BNotManaged | BProtected | BAssociated | BWouldRelease | BReleased | BErrors.

Definition incr_scanned (c : Counters) : Counters :=
  mkCounters (scanned c + 1) (skipped_not_managed c) (skipped_protected c)
    (associated c) (would_release c) (released c) (per_eip_errors c).

(** [<counter> += 1] for the counter of bucket [b]. *)
Definition bump (b : bucket) (c : Counters) : Counters :=
  match b with
  | BNotManaged =>
      mkCounters (scanned c) (skipped_not_managed c + 1) (skipped_protected c)
        (associated c) (would_release c) (released c) (per_eip_errors c)
  | BProtected =>
      mkCounters (scanned c) (skipped_not_managed c) (skipped_protected c + 1)
        (associated c) (would_release c) (released c) (per_eip_errors c)
  | BAssociated =>
      mkCounters (scanned c) (skipped_not_managed c) (skipped_protected c)
        (associated c + 1) (would_release c) (released c) (per_eip_errors c)
  | BWouldRelease =>
      mkCounters (scanned c) (skipped_not_managed c) (skipped_protected c)
        (associated c) (would_release c + 1) (released c) (per_eip_errors c)
  | BReleased =>
      mkCounters (scanned c) (skipped_not_managed c) (skipped_protected c)
        (associated c) (would_release c) (released c + 1) (per_eip_errors c)
  | BErrors =>
      mkCounters (scanned c) (skipped_not_managed c) (skipped_protected c)
        (associated c) (would_release c) (released c) (per_eip_errors c + 1)
  end.

(** ** A state and exception monad

    A computation takes the state and gives the new state with either the
    exception it raised or its value.  What was done before a [raise] stays
    done. *)
Definition Py (A : Type) : Type := State -> State * (exn + A).

#[global] Instance Py_ret : MRet Py := fun A a st => (st, inr a).

#[global] Instance Py_bind : MBind Py := fun A B f m st =>
  match m st with
  | (st', inr a) => f a st'
  | (st', inl e) => (st', inl e)
  end.

#[global] Instance Py_throw : MThrow exn Py := fun A e st => (st, inl e).

(** [try: body / except ... as e: handler e]. *)
Definition try_except {A : Type} (body : Py A) (handler : exn -> Py A) : Py A :=
  fun st =>
    match body st with
    | (st', inl e) => handler e st'
    | r => r
    end.

Definition modify_counters (f : Counters -> Counters) : Py unit :=
  fun st => (mkState (f (counters st)) (stdout st) (release_calls st), inr tt).

(** [print(json.dumps(line))]. *)
Definition print (line : json) : Py unit :=
  fun st => (mkState (counters st) (stdout st ++ [line]) (release_calls st), inr tt).

(** An attribute read or a call that may raise. *)
Definition attempt {A : Type} (outcome : exn + A) : Py A :=
  match outcome with
  | inl e => mthrow e
  | inr a => mret a
  end.

(** [for x in xs: body x]. *)
Fixpoint for_each {A : Type} (xs : list A) (body : A -> Py unit) : Py unit :=
  match xs with
  | [] => mret tt
  | x :: rest => body x ;; for_each rest body
  end.

Definition get_counters : Py Counters := fun st => (st, inr (counters st)).

(** The dict [log(level, message, **fields)] builds. *)
Definition log_event (level message : string) (fields : dict) : json :=
  JObj (dict_update [("level", JStr level); ("message", JStr message)] fields).

(** [log(level, message, **fields)]: one JSON object on standard output. *)
Definition log (level message : string) (fields : dict) : Py unit :=
  print (log_event level message fields).

(** [emit_emf_metrics(namespace, dimensions, metrics)]; [now_ms] is what
    [int(time.time() * 1000)] gives at the call. *)
Definition emit_emf_metrics (now_ms : Z) (namespace : string) (dimensions metrics : dict)
  : Py unit :=
  let metric_definitions :=
    map (fun kv => JObj [("Name", JStr kv.1); ("Unit", JStr "Count")]) metrics in
  let emf_event :=
    dict_update
      (dict_update
         [("_aws",
           JObj [("Timestamp", JNum now_ms);
                 ("CloudWatchMetrics",
                  JArr [JObj [("Namespace", JStr namespace);
                              ("Dimensions", JArr [JArr (map (fun kv => JStr kv.1) dimensions)]);
                              ("Metrics", JArr metric_definitions)]])])]
         dimensions)
      metrics in
  print (JObj emf_event).

(** ** The handler *)

(** The locals of [lambda_handler] set on lines 79-92. *)
Record Config : Type := mkConfig {
  dry_run : bool;
  MANAGED_TAG_KEY : string;
  MANAGED_TAG_VALUE : string;
  PROTECT_TAG_KEY : string;
  PROTECT_TAG_VALUE : string;
  METRICS_ENABLED : bool;
  METRICS_NAMESPACE : string
}.

Definition config_of (event : gmap string pyval) (env : gmap string string) : Config :=
  {| dry_run := dry_run_of event env;
     MANAGED_TAG_KEY := getenv env "MANAGED_TAG_KEY" "ManagedBy";
     MANAGED_TAG_VALUE := getenv env "MANAGED_TAG_VALUE" "ManageEIPs";
     PROTECT_TAG_KEY := getenv env "PROTECT_TAG_KEY" "Protection";
     PROTECT_TAG_VALUE := getenv env "PROTECT_TAG_VALUE" "DoNotRelease";
     METRICS_ENABLED := metrics_enabled_of env;
     METRICS_NAMESPACE := getenv env "METRICS_NAMESPACE" "Custom/FinOps" |}.

(** [getattr(elastic_ip, "tags", None)]. *)
Definition getattr_tags (elastic_ip : VpcAddress) : Py (option (list Tag)) :=
  attempt (tags elastic_ip).

(** [x or []]. *)
Definition or_empty (x : option (list Tag)) : list Tag :=
  match x with
  | None => []
  | Some [] => []
  | Some l => l
  end.

(** [elastic_ip.release()]: the call is made, then it returns or raises. *)
Definition call_release (elastic_ip : VpcAddress) : Py unit :=
  fun st =>
    (mkState (counters st) (stdout st) (release_calls st ++ [allocation_id elastic_ip]),
     release elastic_ip).

(** The log calls inside the loop, lines 138, 156, 164, 182 and 211. *)
Definition log_protected (cfg : Config) (elastic_ip : VpcAddress) : Py unit :=
  log "INFO" "Skipping protected Elastic IP"
    [("allocation_id", JStr (allocation_id elastic_ip));
     ("action", JStr "skip");
     ("reason", JStr "protected");
     ("dry_run", JBool (dry_run cfg))].

Definition log_would_release (elastic_ip : VpcAddress) : Py unit :=
  log "INFO" "Elastic IP would be released (dry-run)"
    [("allocation_id", JStr (allocation_id elastic_ip));
     ("action", JStr "release");
     ("dry_run", JBool true)].

Definition log_releasing (elastic_ip : VpcAddress) : Py unit :=
  log "INFO" "Releasing unassociated Elastic IP"
    [("allocation_id", JStr (allocation_id elastic_ip));
     ("action", JStr "release");
     ("dry_run", JBool false)].

Definition log_client_error (elastic_ip : VpcAddress) (code : string) (e : exn) : Py unit :=
  log "ERROR" "AWS ClientError while processing Elastic IP"
    [("allocation_id", JStr (allocation_id elastic_ip));
     ("error_code", JStr code);
     ("error_message", JStr (exn_str e))].

Definition log_unexpected (elastic_ip : VpcAddress) (type_name : string) (e : exn) : Py unit :=
  log "ERROR" "Unexpected error while processing Elastic IP"
    [("allocation_id", JStr (allocation_id elastic_ip));
     ("error_type", JStr type_name);
     ("error_message", JStr (exn_str e))].

(** The [try] block, lines 124-172.  Falling off the end and [continue] both
    go to the next address. *)
Definition process_address (cfg : Config) (elastic_ip : VpcAddress) : Py unit :=
  x ← getattr_tags elastic_ip;
  let tags := or_empty x in
  let managed_val := _get_tag_value (Some tags) (MANAGED_TAG_KEY cfg) in
  let protect_val := _get_tag_value (Some tags) (PROTECT_TAG_KEY cfg) in
  if decide (managed_val ≠ Some (MANAGED_TAG_VALUE cfg)) then
    modify_counters (bump BNotManaged)
  else if decide (protect_val = Some (PROTECT_TAG_VALUE cfg)) then
    modify_counters (bump BProtected) ;;
    log_protected cfg elastic_ip
  else
    iid ← attempt (instance_id elastic_ip);
    if decide (iid ≠ None) then
      modify_counters (bump BAssociated)
    else if dry_run cfg then
      modify_counters (bump BWouldRelease) ;;
      log_would_release elastic_ip
    else
      log_releasing elastic_ip ;;
      call_release elastic_ip ;;
      modify_counters (bump BReleased).

(** The [except] clauses, lines 174-218.  A [BaseException] that is no
    [Exception] matches neither clause. *)
Definition handle_error (elastic_ip : VpcAddress) (e : exn) : Py unit :=
  match e with
  | ClientError response _ =>
      modify_counters (bump BErrors) ;;
      let code := error_code response in
      log_client_error elastic_ip code e ;;
      if decide (code ∈ FATAL_CODES) then mthrow e else mret tt
  | PyException type_name _ =>
      log_unexpected elastic_ip type_name e ;;
      mthrow e
  | PyBaseException _ _ => mthrow e
  end.

(** The body of the [for] loop, lines 121-218. *)
Definition loop_body (cfg : Config) (elastic_ip : VpcAddress) : Py unit :=
  modify_counters incr_scanned ;;
  try_except (process_address cfg elastic_ip) (handle_error elastic_ip).

(** The [for] loop over [ec2_resource.vpc_addresses.all()]. *)
Definition reconcile (cfg : Config) (addresses : list VpcAddress) : Py unit :=
  for_each addresses (loop_body cfg).

(** The end-of-run log line, lines 224-235. *)
Definition summary_fields (cfg : Config) (c : Counters) : dict :=
  [("dry_run", JBool (dry_run cfg));
   ("scanned", json_of_nat (scanned c));
   ("skipped_not_managed", json_of_nat (skipped_not_managed c));
   ("skipped_protected", json_of_nat (skipped_protected c));
   ("associated", json_of_nat (associated c));
   ("would_release", json_of_nat (would_release c));
   ("released", json_of_nat (released c));
   ("per_eip_errors", json_of_nat (per_eip_errors c))].

(** The [metrics] argument of lines 243-251. *)
Definition metrics_of (c : Counters) : dict :=
  [("EIPsScanned", json_of_nat (scanned c));
   ("EIPsSkippedNotManaged", json_of_nat (skipped_not_managed c));
   ("EIPsSkippedProtected", json_of_nat (skipped_protected c));
   ("EIPsAssociated", json_of_nat (associated c));
   ("EIPsWouldRelease", json_of_nat (would_release c));
   ("EIPsReleased", json_of_nat (released c));
   ("EIPsPerEipErrors", json_of_nat (per_eip_errors c))].

Definition OK_RESPONSE : json :=
  JObj [("statusCode", JNum 200); ("body", JStr "Processed elastic IPs.")].

(** The first log line, lines 95-107. *)
Definition log_start (cfg : Config) (context : option Context) : Py unit :=
  log "INFO" "ManageEIPs start"
    [("dry_run", JBool (dry_run cfg));
     ("function_name", json_of_opt_str (function_name <$> context));
     ("request_id", json_of_opt_str (aws_request_id <$> context));
     ("managed_tag_key", JStr (MANAGED_TAG_KEY cfg));
     ("managed_tag_value", JStr (MANAGED_TAG_VALUE cfg));
     ("protect_tag_key", JStr (PROTECT_TAG_KEY cfg));
     ("protect_tag_value", JStr (PROTECT_TAG_VALUE cfg));
     ("metrics_enabled", JBool (METRICS_ENABLED cfg));
     ("metrics_namespace", JStr (METRICS_NAMESPACE cfg))].

(** The start of the handler, lines 95-118: the first log line,
    [boto3.resource('ec2')], which returns or raises ([ec2]), then the
    counters at zero. *)
Definition start (cfg : Config) (context : option Context) (ec2 : exn + unit) : Py unit :=
  log_start cfg context ;;
  attempt ec2 ;;
  modify_counters (fun _ => zero_counters).

(** The end of the handler, lines 224-258: the end-of-run log line, the
    metrics record when metrics are on, and the response. *)
Definition finish (cfg : Config) (context : option Context) (now_ms : Z) : Py json :=
  c ← get_counters;
  log "INFO" "ManageEIPs completed" (summary_fields cfg c) ;;
  (if METRICS_ENABLED cfg then
     emit_emf_metrics now_ms (METRICS_NAMESPACE cfg)
       [("FunctionName",
         JStr (match context with Some ctx => function_name ctx | None => "ManageEIPs" end))]
       (metrics_of c)
   else mret tt) ;;
  mret OK_RESPONSE.

(** [lambda_handler(event, context)], with what it reads from outside made
    explicit: the environment; the clock when the metrics are written; what
    [boto3.resource('ec2')] does ([ec2]); the addresses that
    [ec2_resource.vpc_addresses.all()] yields and how the listing ends
    ([listing_end]: the iterator is exhausted, or a call that fetches more
    addresses raises).  The [for] statement runs its body on every address
    yielded; a raise of the listing leaves the handler from outside the
    [try]. *)
Definition lambda_handler (event : gmap string pyval) (context : option Context)
    (env : gmap string string) (now_ms : Z) (ec2 : exn + unit)
    (addresses : list VpcAddress) (listing_end : exn + unit) : Py json :=
  let cfg := config_of event env in
  start cfg context ec2 ;;
  reconcile cfg addresses ;;
  attempt listing_end ;;
  finish cfg context now_ms.

(** ** Vocabulary of the properties *)

(** The state once [scanned += 1] has run. *)
Definition after_scanned (st : State) : State :=
  mkState (incr_scanned (counters st)) (stdout st) (release_calls st).

(** An address is counted in bucket [b] by a step from [st] to [st']:
    [scanned] and the counter of [b] went up by one, nothing else moved. *)
Definition counted_in (b : bucket) (st st' : State) : Prop :=
  counters st' = bump b (incr_scanned (counters st)).

(** The tag at the allow-list key has the allow-list value. *)
Definition managed (cfg : Config) (x : option (list Tag)) : Prop :=
  _get_tag_value x (MANAGED_TAG_KEY cfg) = Some (MANAGED_TAG_VALUE cfg).

(** The tag at the protection key has the protection value. *)
Definition protected (cfg : Config) (x : option (list Tag)) : Prop :=
  _get_tag_value x (PROTECT_TAG_KEY cfg) = Some (PROTECT_TAG_VALUE cfg).

(** An error that ends the run: a [ClientError] with one of the
    authorization or credential codes, or anything that is no
    [ClientError]. *)
Definition fatal (e : exn) : Prop :=
  match e with
  | ClientError response _ => error_code response ∈ FATAL_CODES
  | _ => True
  end.

#[global] Instance managed_dec cfg x : Decision (managed cfg x).
Proof. unfold managed. apply _. Defined.

#[global] Instance protected_dec cfg x : Decision (protected cfg x).
Proof. unfold protected. apply _. Defined.

#[global] Instance fatal_dec e : Decision (fatal e).
Proof. destruct e; simpl; apply _. Defined.

(** The sum of the six buckets. *)
Definition bucket_sum (c : Counters) : nat :=
  skipped_not_managed c + skipped_protected c + associated c
  + would_release c + released c + per_eip_errors c.

(** The counters after the addresses were counted in the buckets [bs], one
    bucket per address, in order. *)
Definition tally (bs : list bucket) (c : Counters) : Counters :=
  fold_left (fun acc b => bump b (incr_scanned acc)) bs c.

Definition has_message (m : string) (line : json) : bool :=
  match line with
  | JObj d =>
      match dict_get "message" d with
      | Some (JStr m') => String.eqb m' m
      | _ => false
      end
  | _ => false
  end.

(** The end-of-run log line. *)
Definition is_summary_line (line : json) : bool := has_message "ManageEIPs completed" line.

(** The metrics record. *)
Definition is_metrics_line (line : json) : bool :=
  match line with
  | JObj d =>
      match dict_get "_aws" d with
      | Some _ => true
      | None => false
      end
  | _ => false
  end.

Definition is_report (line : json) : bool := is_summary_line line || is_metrics_line line.

(** Lines that are neither the end-of-run log line nor the metrics record. *)
Definition quiet (lines : list json) : Prop :=
  Forall (fun line => is_report line = false) lines.

(** [st'] is [st] with more lines on standard output and more calls of
    [release()]; the counters are [c]. *)
Definition extends (st : State) (c : Counters) (lines : list json) (calls : list string)
  : State :=
  mkState c (stdout st ++ lines) (release_calls st ++ calls).

(** Two characters that are equal, or the same letter in the two cases. *)
Definition same_letter (a b : ascii) : bool :=
  let x := N_of_ascii a in
  let y := N_of_ascii b in
  let is_letter n := ((65 <=? n) && (n <=? 90) || (97 <=? n) && (n <=? 122))%N in
  Ascii.eqb a b || (is_letter x && is_letter y && (N.lxor x y =? 32)%N).

(** Comparison of two strings that ignores the case of letters. *)
Fixpoint eq_ignore_case (a b : string) : bool :=
  match a, b with
  | EmptyString, EmptyString => true
  | String x a', String y b' => same_letter x y && eq_ignore_case a' b'
  | _, _ => false
  end.

(** The dry-run flag as the interface table gives it: the payload value when
    there is one, else the environment variable when it is set, else
    "false"; the string is then compared with "true", ignoring case. *)
Definition resolve_dry_run (payload environment : option string) : bool :=
  let resolved :=
    match payload with
    | Some s => s
    | None =>
        match environment with
        | Some s => s
        | None => "false"
        end
    end in
  eq_ignore_case resolved "true".

(** The occurrences of [key] in a tag list, in order. *)
Definition occurrences (key : string) (tags : list Tag) : list Tag :=
  filter (fun t => Key t = Some key) tags.

(** The claim of C9 as it is written: when the key occurs more than once,
    the lookup gives the value of its last occurrence. *)
Definition last_write_wins (tags : list Tag) (key : string) : Prop :=
  1 < length (occurrences key tags) ->
  forall t, last (occurrences key tags) = Some t ->
            _get_tag_value (Some tags) key = Value t.

(** The claim of C4 as it is written: a run that a fatal error ends has
    still printed the end-of-run log line. *)
Definition summary_reported_on_abort (event : gmap string pyval) (context : option Context)
    (env : gmap string string) (now_ms : Z) (addresses : list VpcAddress) : Prop :=
  forall st' e,
    lambda_handler event context env now_ms (inr tt) addresses (inr tt) initial_state
    = (st', inl e) ->
    exists line, line ∈ stdout st' /\ is_summary_line line = true.

(** The claim of C8 as it is written: a managed, unprotected address whose
    instance id was read is counted as associated exactly when the
    instance id is non-empty, that is, a string that is not the empty
    string. *)
Definition associated_iff_non_empty (cfg : Config) (a : VpcAddress) (st : State) : Prop :=
  associated (counters (loop_body cfg a st).1) = associated (counters st) + 1
  <-> exists s, instance_id a = inr (Some s) /\ s ≠ "".

(** The claim of C5 as it is written: the error counter goes up in a step
    exactly when the step met an error that is recoverable. *)
Definition counts_only_recoverable (cfg : Config) (a : VpcAddress) (st : State) : Prop :=
  per_eip_errors (counters (loop_body cfg a st).1) = per_eip_errors (counters st) + 1
  <-> exists st1 e, process_address cfg a (after_scanned st) = (st1, inl e) /\ ¬ fatal e.

(** An address on the way to a release: its tags read as managed and not
    protected, and it has no instance. *)
Definition releasable (cfg : Config) (a : VpcAddress) : Prop :=
  exists x, tags a = inr x /\ managed cfg x /\ ¬ protected cfg x
            /\ instance_id a = inr None.

(** What the handlers do to the counters for an exception. *)
Definition count_error (e : exn) (c : Counters) : Counters :=
  match e with
  | ClientError _ _ => bump BErrors c
  | _ => c
  end.

(** How a handled exception ends the step. *)
Definition after_error (e : exn) : exn + unit :=
  if decide (fatal e) then inl e else inr tt.

(** The ways through one turn of the loop: the calls of [release()] it
    makes, what it does to the counters after [scanned += 1], and how it
    ends. *)
Inductive turn (cfg : Config) (a : VpcAddress)
  : list string -> (Counters -> Counters) -> exn + unit -> Prop :=
| turn_skip b :
    b = BNotManaged \/ b = BProtected \/ b = BAssociated ->
    turn cfg a [] (bump b) (inr tt)
| turn_would_release :
    dry_run cfg = true -> releasable cfg a ->
    turn cfg a [] (bump BWouldRelease) (inr tt)
| turn_released :
    dry_run cfg = false -> releasable cfg a -> release a = inr tt ->
    turn cfg a [allocation_id a] (bump BReleased) (inr tt)
| turn_release_raises e :
    dry_run cfg = false -> releasable cfg a -> release a = inl e ->
    turn cfg a [allocation_id a] (count_error e) (after_error e)
| turn_read_raises e :
    tags a = inl e \/ instance_id a = inl e ->
    turn cfg a [] (count_error e) (after_error e).

(** The turns of a run of the loop put together: the calls made, what is
    done to the counters, and how the loop ends.  A raise ends the run. *)
Inductive run_of (cfg : Config)
  : list VpcAddress -> list string -> (Counters -> Counters) -> exn + unit -> Prop :=
| run_nil : run_of cfg [] [] (fun c => c) (inr tt)
| run_continue a rest calls f calls' g res :
    turn cfg a calls f (inr tt) -> run_of cfg rest calls' g res ->
    run_of cfg (a :: rest) (calls ++ calls') (fun c => g (f (incr_scanned c))) res
| run_raise a rest calls f e :
    turn cfg a calls f (inl e) ->
    run_of cfg (a :: rest) calls (fun c => f (incr_scanned c)) (inl e).

(** The member [k] of a printed JSON object. *)
Definition field (k : string) (line : json) : option json :=
  match line with
  | JObj d => dict_get k d
  | _ => None
  end.

(** The address with another outcome for [release()]. *)
Definition with_release (outcome : exn + unit) (a : VpcAddress) : VpcAddress :=
  mkVpcAddress (allocation_id a) (tags a) (instance_id a) outcome.

(** The event of the local test harness, line 265. *)
Definition test_event : gmap string pyval := {["dry_run" := PyBool true]}.

(** ** Sample inputs *)

Definition tag (k v : string) : Tag := mkTag (Some k) (Some v).

Definition denied_response : Response :=
  mkResponse (Some (mkErrorDict (Some "AccessDenied"))).

Definition throttled_response : Response :=
  mkResponse (Some (mkErrorDict (Some "RequestLimitExceeded"))).

Definition access_denied : exn :=
  ClientError denied_response
    "An error occurred (AccessDenied) when calling the ReleaseAddress operation".

Definition throttled : exn :=
  ClientError throttled_response
    "An error occurred (RequestLimitExceeded) when calling the ReleaseAddress operation".

Definition managed_tags : option (list Tag) := Some [tag "ManagedBy" "ManageEIPs"].

Definition protected_tags : option (list Tag) :=
  Some [tag "Name" "nat"; tag "ManagedBy" "ManageEIPs"; tag "Protection" "DoNotRelease"].

Definition eip_untagged : VpcAddress := mkVpcAddress "eipalloc-01" (inr None) (inr None) (inr tt).

Definition eip_other : VpcAddress :=
  mkVpcAddress "eipalloc-02" (inr (Some [tag "ManagedBy" "Terraform"])) (inr None) (inr tt).

Definition eip_protected : VpcAddress :=
  mkVpcAddress "eipalloc-03" (inr protected_tags) (inr None) (inr tt).

Definition eip_associated : VpcAddress :=
  mkVpcAddress "eipalloc-04" (inr managed_tags) (inr (Some "i-0abc")) (inr tt).

Definition eip_idle : VpcAddress :=
  mkVpcAddress "eipalloc-05" (inr managed_tags) (inr None) (inr tt).

Definition eip_throttled : VpcAddress :=
  mkVpcAddress "eipalloc-06" (inr managed_tags) (inr None) (inl throttled).

Definition eip_denied : VpcAddress :=
  mkVpcAddress "eipalloc-07" (inr managed_tags) (inr None) (inl access_denied).

Definition eip_empty_instance : VpcAddress :=
  mkVpcAddress "eipalloc-09" (inr managed_tags) (inr (Some "")) (inr tt).

Definition five_addresses : list VpcAddress :=
  [eip_untagged; eip_other; eip_protected; eip_associated; eip_idle].

Definition sample_config (dry : bool) : Config :=
  mkConfig dry "ManagedBy" "ManageEIPs" "Protection" "DoNotRelease" true "Custom/FinOps".

Definition duplicate_tags : list Tag := [tag "Owner" "first"; tag "Owner" "second"].

(** * Properties *)

Example sample_config_is_default b :
  config_of {["dry_run" := PyBool b]} ∅ = sample_config b.
Proof. destruct b; vm_compute; reflexivity. Qed.

(** ** Strings and the dry-run flag *)

Section Lowering.

(** Lowering a character gives a letter of "true" exactly when the character
    is that letter in either case. *)
Lemma lower_ascii_t c : Ascii.eqb (lower_ascii c) "t" = same_letter c "t".
Proof. destruct c as [[] [] [] [] [] [] [] []]; reflexivity. Qed.

Lemma lower_ascii_r c : Ascii.eqb (lower_ascii c) "r" = same_letter c "r".
Proof. destruct c as [[] [] [] [] [] [] [] []]; reflexivity. Qed.

Lemma lower_ascii_u c : Ascii.eqb (lower_ascii c) "u" = same_letter c "u".
Proof. destruct c as [[] [] [] [] [] [] [] []]; reflexivity. Qed.

Lemma lower_ascii_e c : Ascii.eqb (lower_ascii c) "e" = same_letter c "e".
Proof. destruct c as [[] [] [] [] [] [] [] []]; reflexivity. Qed.

Lemma lower_is_true s :
  String.eqb (lower s) "true" = eq_ignore_case s "true".
Proof.
  destruct s as [|c1 [|c2 [|c3 [|c4 [|c5 s]]]]]; simpl;
    rewrite ?lower_ascii_t, ?lower_ascii_r, ?lower_ascii_u, ?lower_ascii_e;
    reflexivity.
Qed.

End Lowering.

Example py_str_int : py_str (PyInt 0) = "0" /\ py_str (PyInt (-15)) = "-15".
Proof. split; reflexivity. Qed.

Example dry_run_spellings :
  map (fun s => dry_run_of {["dry_run" := PyStr s]} ∅) ["true"; "TRUE"; "tRuE"; "yes"; "1"; "true "; ""]
  = [true; true; true; false; false; false; false].
Proof. vm_compute. reflexivity. Qed.

(** A JSON [true] in the payload turns dry-run on, whatever the environment
    says; a JSON [null] is present too, and turns it off. *)
Example dry_run_payload_bool :
  dry_run_of {["dry_run" := PyBool true]} {["DRY_RUN" := "false"]} = true
  /\ dry_run_of {["dry_run" := PyNone]} {["DRY_RUN" := "true"]} = false.
Proof. split; vm_compute; reflexivity. Qed.

Example dry_run_environment :
  dry_run_of ∅ {["DRY_RUN" := "True"]} = true /\ dry_run_of ∅ ∅ = false.
Proof. split; vm_compute; reflexivity. Qed.

(** C10. The dry-run flag is the payload's [dry_run] value when the payload
    has one, else the [DRY_RUN] environment variable when it is set, else
    "false"; the value, as a string, is compared with "true" ignoring case,
    and anything else gives [false]. *)
Theorem dry_run_resolution (event : gmap string pyval) (env : gmap string string) :
  dry_run_of event env = resolve_dry_run (py_str <$> event !! "dry_run") (env !! "DRY_RUN").
Proof.
  unfold dry_run_of, resolve_dry_run, event_get, getenv.
  rewrite lower_is_true.
  destruct (event !! "dry_run") as [v|]; simpl; [reflexivity|].
  destruct (env !! "DRY_RUN"); reflexivity.
Qed.

Lemma payload_overrides_environment (event : gmap string pyval) env env' v :
  event !! "dry_run" = Some v -> dry_run_of event env = dry_run_of event env'.
Proof. intros H. rewrite !dry_run_resolution, H. reflexivity. Qed.

(** The strings that count as true are the sixteen spellings of "true". *)
Lemma eq_ignore_case_true s :
  eq_ignore_case s "true" = true <->
  exists c1 c2 c3 c4,
    s = String c1 (String c2 (String c3 (String c4 EmptyString)))
    /\ (c1 = "t" \/ c1 = "T")%char /\ (c2 = "r" \/ c2 = "R")%char
    /\ (c3 = "u" \/ c3 = "U")%char /\ (c4 = "e" \/ c4 = "E")%char.
Proof.
  assert (Ht : forall c, same_letter c "t" = true -> (c = "t" \/ c = "T")%char).
  { intros [[] [] [] [] [] [] [] []]; vm_compute; intros; try discriminate; auto. }
  assert (Hr : forall c, same_letter c "r" = true -> (c = "r" \/ c = "R")%char).
  { intros [[] [] [] [] [] [] [] []]; vm_compute; intros; try discriminate; auto. }
  assert (Hu : forall c, same_letter c "u" = true -> (c = "u" \/ c = "U")%char).
  { intros [[] [] [] [] [] [] [] []]; vm_compute; intros; try discriminate; auto. }
  assert (He : forall c, same_letter c "e" = true -> (c = "e" \/ c = "E")%char).
  { intros [[] [] [] [] [] [] [] []]; vm_compute; intros; try discriminate; auto. }
  split.
  - destruct s as [|c1 [|c2 [|c3 [|c4 [|c5 s]]]]]; simpl; try discriminate.
    + destruct (same_letter c1 "t"); discriminate.
    + destruct (same_letter c1 "t"), (same_letter c2 "r"); discriminate.
    + destruct (same_letter c1 "t"), (same_letter c2 "r"), (same_letter c3 "u");
        discriminate.
    + intros H. apply andb_prop in H as [H1 H]. apply andb_prop in H as [H2 H].
      apply andb_prop in H as [H3 H]. apply andb_prop in H as [H4 _].
      exists c1, c2, c3, c4. split; [reflexivity|].
      auto.
    + destruct (same_letter c1 "t"), (same_letter c2 "r"), (same_letter c3 "u"),
        (same_letter c4 "e"); discriminate.
  - intros (c1 & c2 & c3 & c4 & -> & [-> | ->] & [-> | ->] & [-> | ->] & [-> | ->]);
      reflexivity.
Qed.

(** ** Tag lookup *)

Lemma get_tag_value_scan (l : list Tag) key :
  _get_tag_value (Some l) key = scan_tags l key.
Proof. destruct l; reflexivity. Qed.

Lemma get_tag_value_or_empty (x : option (list Tag)) key :
  _get_tag_value (Some (or_empty x)) key = _get_tag_value x key.
Proof. destruct x as [[|t l]|]; reflexivity. Qed.

(** The scan gives the value of the head of the occurrences of the key. *)
Lemma scan_tags_head (l : list Tag) key :
  scan_tags l key = head (occurrences key l) ≫= Value.
Proof.
  unfold occurrences. induction l as [|t l IH]; simpl; [reflexivity|].
  rewrite filter_cons. destruct (decide (Key t = Some key)); simpl; auto.
Qed.

(** X5. When no tag of the collection carries the key (the collection may be
    [None] or empty, and tags without a [Key] never match) the lookup gives
    [None] and raises nothing. *)
Lemma get_tag_value_absent (x : option (list Tag)) key :
  (forall l t, x = Some l -> t ∈ l -> Key t ≠ Some key) ->
  _get_tag_value x key = None.
Proof.
  destruct x as [l|]; [|reflexivity]. intros H.
  rewrite get_tag_value_scan.
  induction l as [|t l IH]; simpl; [reflexivity|].
  destruct (decide (Key t = Some key)) as [E|_].
  - exfalso. apply (H (t :: l) t); [reflexivity|left|assumption].
  - apply IH. intros l' t' [= <-] Hin. apply (H (t :: l) t'); [reflexivity|by right].
Qed.

Example get_tag_value_samples :
  _get_tag_value None "ManagedBy" = None
  /\ _get_tag_value (Some []) "ManagedBy" = None
  /\ _get_tag_value (Some [mkTag None (Some "x"); mkTag (Some "ManagedBy") None]) "ManagedBy" = None
  /\ _get_tag_value protected_tags "Protection" = Some "DoNotRelease".
Proof. repeat split. Qed.

(** C9, as written, fails: with the key [Owner] tagged twice the lookup gives
    the first value, not the last. *)
Lemma last_write_wins_fails : ¬ last_write_wins duplicate_tags "Owner".
Proof.
  intros H.
  specialize (H ltac:(vm_compute; lia) (tag "Owner" "second") eq_refl).
  vm_compute in H. discriminate H.
Qed.

(** C9, amended. The lookup gives the value of the first occurrence of the
    key in the tag list, however many times the key occurs. *)
Theorem first_occurrence_wins (tags : list Tag) (key : string) (t : Tag) :
  head (occurrences key tags) = Some t ->
  _get_tag_value (Some tags) key = Value t.
Proof.
  intros H. rewrite get_tag_value_scan, scan_tags_head, H. reflexivity.
Qed.

Lemma first_occurrence_wins_witness :
  1 < length (occurrences "Owner" duplicate_tags)
  /\ _get_tag_value (Some duplicate_tags) "Owner" = Some "first".
Proof.
  split; [vm_compute; lia|].
  apply (first_occurrence_wins duplicate_tags "Owner" (tag "Owner" "first")).
  reflexivity.
Defined.

(** Spelled out on the list: a tag with the key, after tags without it. *)
Lemma first_occurrence_split (pre post : list Tag) (t : Tag) key :
  Forall (fun t' => Key t' ≠ Some key) pre -> Key t = Some key ->
  _get_tag_value (Some (pre ++ t :: post)) key = Value t.
Proof.
  intros Hb Ht. rewrite get_tag_value_scan.
  induction Hb as [|t' l Hne _ IH]; simpl.
  - destruct (decide (Key t = Some key)); [reflexivity|contradiction].
  - destruct (decide (Key t' = Some key)); [contradiction|exact IH].
Qed.

(** ** One address *)

Ltac py_unfold :=
  unfold log_protected, log_would_release, log_releasing, log_client_error,
    log_unexpected, log, print, modify_counters, call_release, attempt,
    mbind, Py_bind, mret, Py_ret, mthrow, Py_throw in *.

Lemma loop_body_eq cfg a st :
  loop_body cfg a st
  = try_except (process_address cfg a) (handle_error a) (after_scanned st).
Proof. reflexivity. Qed.

Lemma getattr_tags_read a x : tags a = inr x -> getattr_tags a = mret x.
Proof. unfold getattr_tags. intros ->. reflexivity. Qed.

Lemma process_not_managed cfg a x st :
  tags a = inr x -> ¬ managed cfg x ->
  process_address cfg a st
  = (mkState (bump BNotManaged (counters st)) (stdout st) (release_calls st), inr tt).
Proof.
  intros Ht Hm. unfold process_address. rewrite (getattr_tags_read _ _ Ht).
  py_unfold. cbv beta iota zeta. rewrite !get_tag_value_or_empty.
  destruct (decide _) as [_|Hn]; [reflexivity|].
  exfalso. apply Hn. intros E. apply Hm, E.
Qed.

Ltac enter_managed Ht Hm :=
  unfold process_address; rewrite (getattr_tags_read _ _ Ht);
  py_unfold; cbv beta iota zeta; rewrite !get_tag_value_or_empty;
  destruct (decide (_get_tag_value _ (MANAGED_TAG_KEY _) ≠ _)) as [Hn|_];
  [exfalso; exact (Hn Hm)|].

Ltac enter_unprotected Ht Hm Hp :=
  enter_managed Ht Hm;
  destruct (decide (_get_tag_value _ (PROTECT_TAG_KEY _) = _)) as [Hy|_];
  [exfalso; exact (Hp Hy)|].

Lemma process_protected cfg a x st :
  tags a = inr x -> managed cfg x -> protected cfg x ->
  process_address cfg a st
  = (mkState (bump BProtected (counters st))
       (stdout st ++
          [log_event "INFO" "Skipping protected Elastic IP"
             [("allocation_id", JStr (allocation_id a)); ("action", JStr "skip");
              ("reason", JStr "protected"); ("dry_run", JBool (dry_run cfg))]])
       (release_calls st),
     inr tt).
Proof.
  intros Ht Hm Hp. enter_managed Ht Hm.
  destruct (decide _) as [_|Hn]; [reflexivity|]. exfalso. exact (Hn Hp).
Qed.

Lemma process_associated cfg a x i st :
  tags a = inr x -> managed cfg x -> ¬ protected cfg x -> instance_id a = inr (Some i) ->
  process_address cfg a st
  = (mkState (bump BAssociated (counters st)) (stdout st) (release_calls st), inr tt).
Proof.
  intros Ht Hm Hp Hi. enter_unprotected Ht Hm Hp.
  rewrite Hi. cbv beta iota zeta.
  destruct (decide _) as [_|Hn]; [reflexivity|]. exfalso. apply Hn. discriminate.
Qed.

Lemma process_would_release cfg a x st :
  tags a = inr x -> managed cfg x -> ¬ protected cfg x -> instance_id a = inr None ->
  dry_run cfg = true ->
  process_address cfg a st
  = (mkState (bump BWouldRelease (counters st))
       (stdout st ++
          [log_event "INFO" "Elastic IP would be released (dry-run)"
             [("allocation_id", JStr (allocation_id a)); ("action", JStr "release");
              ("dry_run", JBool true)]])
       (release_calls st),
     inr tt).
Proof.
  intros Ht Hm Hp Hi Hd. enter_unprotected Ht Hm Hp.
  rewrite Hi, Hd. cbv beta iota zeta.
  destruct (decide _) as [Hn|_]; [exfalso; apply Hn; reflexivity|]. reflexivity.
Qed.

(** Without dry-run the address is logged and [release()] is called, once;
    the counter goes up when the call returns. *)
Lemma process_release cfg a x st :
  tags a = inr x -> managed cfg x -> ¬ protected cfg x -> instance_id a = inr None ->
  dry_run cfg = false ->
  let line :=
    log_event "INFO" "Releasing unassociated Elastic IP"
      [("allocation_id", JStr (allocation_id a)); ("action", JStr "release");
       ("dry_run", JBool false)] in
  process_address cfg a st
  = match release a with
    | inr _ =>
        (mkState (bump BReleased (counters st)) (stdout st ++ [line])
           (release_calls st ++ [allocation_id a]), inr tt)
    | inl e =>
        (mkState (counters st) (stdout st ++ [line])
           (release_calls st ++ [allocation_id a]), inl e)
    end.
Proof.
  intros Ht Hm Hp Hi Hd. enter_unprotected Ht Hm Hp.
  rewrite Hi, Hd. cbv beta iota zeta.
  destruct (decide _) as [Hn|_]; [exfalso; apply Hn; reflexivity|].
  simpl. destruct (release a) as [e|[]]; reflexivity.
Qed.

Lemma process_instance_id_raises cfg a x e st :
  tags a = inr x -> managed cfg x -> ¬ protected cfg x -> instance_id a = inl e ->
  process_address cfg a st = (st, inl e).
Proof.
  intros Ht Hm Hp Hi. enter_unprotected Ht Hm Hp. rewrite Hi. reflexivity.
Qed.

Lemma process_tags_raise cfg a e st :
  tags a = inl e -> process_address cfg a st = (st, inl e).
Proof. intros Ht. unfold process_address, getattr_tags. rewrite Ht. reflexivity. Qed.

(** *** The handlers *)

Lemma handle_recoverable a r m st :
  error_code r ∉ FATAL_CODES ->
  handle_error a (ClientError r m) st
  = (mkState (bump BErrors (counters st))
       (stdout st ++
          [log_event "ERROR" "AWS ClientError while processing Elastic IP"
             [("allocation_id", JStr (allocation_id a));
              ("error_code", JStr (error_code r)); ("error_message", JStr m)]])
       (release_calls st),
     inr tt).
Proof.
  intros H. unfold handle_error. py_unfold. cbv beta iota zeta.
  destruct (decide _); [contradiction|reflexivity].
Qed.

Lemma handle_fatal_code a r m st :
  error_code r ∈ FATAL_CODES ->
  handle_error a (ClientError r m) st
  = (mkState (bump BErrors (counters st))
       (stdout st ++
          [log_event "ERROR" "AWS ClientError while processing Elastic IP"
             [("allocation_id", JStr (allocation_id a));
              ("error_code", JStr (error_code r)); ("error_message", JStr m)]])
       (release_calls st),
     inl (ClientError r m)).
Proof.
  intros H. unfold handle_error. py_unfold. cbv beta iota zeta.
  destruct (decide _); [reflexivity|contradiction].
Qed.

Lemma handle_unexpected a n m st :
  handle_error a (PyException n m) st
  = (mkState (counters st)
       (stdout st ++
          [log_event "ERROR" "Unexpected error while processing Elastic IP"
             [("allocation_id", JStr (allocation_id a));
              ("error_type", JStr n); ("error_message", JStr m)]])
       (release_calls st),
     inl (PyException n m)).
Proof. reflexivity. Qed.

Lemma handle_base_exception a n m st :
  handle_error a (PyBaseException n m) st = (st, inl (PyBaseException n m)).
Proof. reflexivity. Qed.

(** *** Every way through the loop body *)

Lemma extends_nil st c : extends st c [] [] = mkState c (stdout st) (release_calls st).
Proof. unfold extends. rewrite !app_nil_r. reflexivity. Qed.

Lemma quiet_nil : quiet [].
Proof. constructor. Qed.

Lemma extends_id st : extends st (counters st) [] [] = st.
Proof. rewrite extends_nil. destruct st; reflexivity. Qed.

(** What the [try] block can do from any state: count the address in one
    bucket that is not the error bucket and go on, or raise with the counters
    as they were.  It prints no report line, and calls [release()] at most
    once, on this address. *)
Lemma process_shape cfg a st :
  exists lines calls,
    quiet lines /\ (calls = [] \/ calls = [allocation_id a]) /\
    ((exists b, b ≠ BErrors /\
        process_address cfg a st = (extends st (bump b (counters st)) lines calls, inr tt))
     \/ (exists e, process_address cfg a st = (extends st (counters st) lines calls, inl e))).
Proof.
  destruct (tags a) as [e|x] eqn:Ht.
  { exists [], []. split; [apply quiet_nil|]. split; [by left|].
    right. eexists. rewrite extends_id. by apply process_tags_raise. }
  destruct (decide (managed cfg x)) as [Hm|Hm].
  2:{ exists [], []. split; [apply quiet_nil|]. split; [by left|].
      left. exists BNotManaged. split; [discriminate|].
      rewrite extends_nil. by eapply process_not_managed. }
  destruct (decide (protected cfg x)) as [Hp|Hp].
  { eexists [_], []. split; [|split; [by left|]].
    2:{ left. exists BProtected. split; [discriminate|].
        unfold extends. rewrite app_nil_r. by eapply process_protected. }
    repeat constructor. }
  destruct (instance_id a) as [e|[i|]] eqn:Hi.
  { exists [], []. split; [apply quiet_nil|]. split; [by left|].
    right. exists e. rewrite extends_id. by eapply process_instance_id_raises. }
  { exists [], []. split; [apply quiet_nil|]. split; [by left|].
    left. exists BAssociated. split; [discriminate|].
    rewrite extends_nil. by eapply process_associated. }
  destruct (dry_run cfg) eqn:Hd.
  { eexists [_], []. split; [|split; [by left|]].
    2:{ left. exists BWouldRelease. split; [discriminate|].
        unfold extends. rewrite app_nil_r. by eapply process_would_release. }
    repeat constructor. }
  eexists [_], [_]. split; [|split; [by right|]].
  2:{ rewrite (process_release cfg a x st Ht Hm Hp Hi Hd). cbv zeta.
      destruct (release a) as [e|[]].
      - right. exists e. reflexivity.
      - left. exists BReleased. split; [discriminate|]. reflexivity. }
  repeat constructor.
Qed.

(** What the handlers do with an exception: a recoverable one is counted and
    logged and the loop goes on; a fatal one is raised again, after being
    counted when it is a [ClientError]. *)
Lemma handle_shape a e st :
  exists lines,
    quiet lines /\
    ((¬ fatal e /\
        handle_error a e st = (extends st (bump BErrors (counters st)) lines [], inr tt))
     \/ (fatal e /\ exists c,
           (c = counters st \/ c = bump BErrors (counters st)) /\
           handle_error a e st = (extends st c lines [], inl e))).
Proof.
  destruct e as [r m|n m|n m].
  - destruct (decide (error_code r ∈ FATAL_CODES)) as [Hf|Hf]; eexists [_].
    + split; [|right; split; [exact Hf|]].
      2:{ eexists. split; [by right|].
          unfold extends. rewrite app_nil_r. by apply handle_fatal_code. }
      repeat constructor.
    + split; [|left; split; [exact Hf|]].
      2:{ unfold extends. rewrite app_nil_r. by apply handle_recoverable. }
      repeat constructor.
  - eexists [_]. split; [|right; split; [exact I|]].
    2:{ eexists. split; [by left|].
        unfold extends. rewrite app_nil_r. apply handle_unexpected. }
    repeat constructor.
  - exists []. split; [apply quiet_nil|]. right. split; [exact I|].
    eexists. split; [by left|]. rewrite extends_id. reflexivity.
Qed.

Lemma extends_extends st c l k c' l' k' :
  extends (extends st c l k) c' l' k' = extends st c' (l ++ l') (k ++ k').
Proof. unfold extends. simpl. rewrite <- !app_assoc. reflexivity. Qed.

Lemma quiet_app l l' : quiet l -> quiet l' -> quiet (l ++ l').
Proof. apply Forall_app_2. Qed.

(** One turn of the loop, from any state. *)
Lemma loop_body_shape cfg a st :
  exists lines calls,
    quiet lines /\ (calls = [] \/ calls = [allocation_id a]) /\
    ((exists b,
         loop_body cfg a st
         = (extends st (bump b (incr_scanned (counters st))) lines calls, inr tt))
     \/ (exists e c,
           fatal e /\ loop_body cfg a st = (extends st c lines calls, inl e))).
Proof.
  rewrite loop_body_eq. unfold try_except.
  destruct (process_shape cfg a (after_scanned st))
    as (lines & calls & Hq & Hc & [(b & _ & ->)|(e & ->)]).
  - exists lines, calls. split; [exact Hq|]. split; [exact Hc|]. left. exists b. reflexivity.
  - set (st1 := extends (after_scanned st) (counters (after_scanned st)) lines calls).
    destruct (handle_shape a e st1) as (lines' & Hq' & [(Hnf & ->)|(Hf & c & _ & ->)]);
      exists (lines ++ lines'), calls; (split; [by apply quiet_app|]); (split; [exact Hc|]).
    + left. exists BErrors. unfold st1. rewrite extends_extends, app_nil_r. reflexivity.
    + right. exists e, c. split; [exact Hf|].
      unfold st1. rewrite extends_extends, app_nil_r. reflexivity.
Qed.

(** ** The loop *)

Lemma reconcile_nil cfg st : reconcile cfg [] st = (st, inr tt).
Proof. reflexivity. Qed.

Lemma reconcile_cons cfg a rest st :
  reconcile cfg (a :: rest) st
  = match loop_body cfg a st with
    | (st', inr _) => reconcile cfg rest st'
    | (st', inl e) => (st', inl e)
    end.
Proof. reflexivity. Qed.

(** A raise ends the loop where it is; the addresses after it are not
    looked at. *)
Lemma reconcile_app cfg pre post st :
  reconcile cfg (pre ++ post) st
  = match reconcile cfg pre st with
    | (st', inr _) => reconcile cfg post st'
    | (st', inl e) => (st', inl e)
    end.
Proof.
  revert st. induction pre as [|a pre IH]; intros st; [reflexivity|].
  rewrite <- app_comm_cons, !reconcile_cons.
  destruct (loop_body cfg a st) as [st1 [e|[]]]; [reflexivity|apply IH].
Qed.

Section CounterArithmetic.

Variable c : Counters.

Lemma scanned_bump b : scanned (bump b c) = scanned c.
Proof. destruct b; reflexivity. Qed.

Lemma bucket_sum_bump b : bucket_sum (bump b c) = bucket_sum c + 1.
Proof. destruct b; unfold bucket_sum; simpl; lia. Qed.

Lemma bucket_sum_incr_scanned : bucket_sum (incr_scanned c) = bucket_sum c.
Proof. reflexivity. Qed.

Lemma scanned_incr_scanned : scanned (incr_scanned c) = scanned c + 1.
Proof. reflexivity. Qed.

End CounterArithmetic.

Lemma tally_snoc bs b c : tally (bs ++ [b]) c = bump b (incr_scanned (tally bs c)).
Proof. unfold tally. rewrite fold_left_app. reflexivity. Qed.

Lemma tally_cons b bs c : tally (b :: bs) c = tally bs (bump b (incr_scanned c)).
Proof. reflexivity. Qed.

Lemma scanned_tally bs c : scanned (tally bs c) = scanned c + length bs.
Proof.
  revert c. induction bs as [|b bs IH]; intros c; [simpl; lia|].
  rewrite tally_cons, IH, scanned_bump, scanned_incr_scanned. simpl. lia.
Qed.

Lemma bucket_sum_tally bs c : bucket_sum (tally bs c) = bucket_sum c + length bs.
Proof.
  revert c. induction bs as [|b bs IH]; intros c; [simpl; lia|].
  rewrite tally_cons, IH, bucket_sum_bump, bucket_sum_incr_scanned. simpl. lia.
Qed.

(** Distinct buckets give distinct counters: an address is counted in one
    bucket only. *)
Lemma bump_inj b b' c : bump b c = bump b' c -> b = b'.
Proof.
  destruct b, b'; try reflexivity; intros H; exfalso;
    injection H; intros; lia.
Qed.

(** A loop that ends without a raise has counted every address in one
    bucket. *)
Lemma reconcile_tally cfg addresses st st' :
  reconcile cfg addresses st = (st', inr tt) ->
  exists bs, length bs = length addresses /\ counters st' = tally bs (counters st).
Proof.
  revert st. induction addresses as [|a rest IH]; intros st.
  - rewrite reconcile_nil. intros [= <-]. exists []. split; reflexivity.
  - rewrite reconcile_cons.
    destruct (loop_body_shape cfg a st)
      as (lines & calls & _ & _ & [(b & ->)|(e & c & _ & ->)]); [|discriminate].
    intros H. destruct (IH _ H) as (bs & Hlen & Hc).
    exists (b :: bs). split; [simpl; congruence|]. rewrite Hc. reflexivity.
Qed.

(** C1. When the loop runs over the addresses from zeroed counters and ends
    without a raise, [scanned] is the sum of the six other counters, it is
    the number of addresses, and the counters are those of a tally that puts
    each address in exactly one bucket. *)
Theorem counter_sum_invariant cfg (addresses : list VpcAddress) st st' :
  counters st = zero_counters ->
  reconcile cfg addresses st = (st', inr tt) ->
  let c := counters st' in
  scanned c
  = skipped_not_managed c + skipped_protected c + associated c
    + would_release c + released c + per_eip_errors c
  /\ scanned c = length addresses
  /\ exists bs : list bucket,
       length bs = length addresses /\ c = tally bs zero_counters.
Proof.
  intros H0 Hrun c.
  destruct (reconcile_tally _ _ _ _ Hrun) as (bs & Hlen & Hc).
  rewrite H0 in Hc. fold c in Hc.
  pose proof (scanned_tally bs zero_counters) as Hs.
  pose proof (bucket_sum_tally bs zero_counters) as Hb.
  rewrite <- Hc in Hs, Hb. unfold bucket_sum in Hb. simpl in Hs, Hb.
  split; [lia|]. split; [lia|]. exists bs. split; assumption.
Qed.

Lemma counter_sum_invariant_witness :
  let addresses := five_addresses ++ [eip_throttled] in
  let st' := (reconcile (sample_config false) addresses initial_state).1 in
  reconcile (sample_config false) addresses initial_state = (st', inr tt)
  /\ counters st' = mkCounters 6 2 1 1 0 1 1
  /\ scanned (counters st')
     = skipped_not_managed (counters st') + skipped_protected (counters st')
       + associated (counters st') + would_release (counters st')
       + released (counters st') + per_eip_errors (counters st').
Proof.
  split; [vm_compute; reflexivity|]. split; [vm_compute; reflexivity|].
  apply (counter_sum_invariant (sample_config false)
           (five_addresses ++ [eip_throttled]) initial_state);
    vm_compute; reflexivity.
Defined.

(** ** The decision for one address *)

Lemma loop_body_continue cfg a st st1 :
  process_address cfg a (after_scanned st) = (st1, inr tt) ->
  loop_body cfg a st = (st1, inr tt).
Proof. intros H. rewrite loop_body_eq. unfold try_except. rewrite H. reflexivity. Qed.

Lemma loop_body_raise cfg a st st1 e :
  process_address cfg a (after_scanned st) = (st1, inl e) ->
  loop_body cfg a st = handle_error a e st1.
Proof. intros H. rewrite loop_body_eq. unfold try_except. rewrite H. reflexivity. Qed.

(** The handlers leave the calls of [release()] and the counter of
    associated addresses alone. *)
Lemma handle_error_frame a e st :
  release_calls (handle_error a e st).1 = release_calls st
  /\ associated (counters (handle_error a e st).1) = associated (counters st).
Proof.
  destruct (handle_shape a e st) as (lines & _ & [(_ & ->)|(_ & c & Hc & ->)]); simpl.
  - rewrite app_nil_r. split; reflexivity.
  - rewrite app_nil_r. split; [reflexivity|]. destruct Hc as [->| ->]; reflexivity.
Qed.

(** C7. An address whose tag collection is [None] or empty, or whose tag at
    the allow-list key is absent or has another value, is counted as not
    managed: whatever its protection tag, its association and what
    [release()] would do, the step raises nothing, prints nothing and calls
    nothing. *)
Theorem not_managed_is_skipped cfg (a : VpcAddress) (x : option (list Tag)) st :
  tags a = inr x ->
  (x = None \/ x = Some []
   \/ _get_tag_value x (MANAGED_TAG_KEY cfg) = None
   \/ exists v, _get_tag_value x (MANAGED_TAG_KEY cfg) = Some v /\ v ≠ MANAGED_TAG_VALUE cfg) ->
  loop_body cfg a st
  = (mkState (bump BNotManaged (incr_scanned (counters st))) (stdout st) (release_calls st),
     inr tt).
Proof.
  intros Ht Hx. apply loop_body_continue.
  apply (process_not_managed cfg a x (after_scanned st) Ht).
  unfold managed.
  destruct Hx as [->|[->|[->|(v & -> & Hv)]]]; try discriminate. congruence.
Qed.

Lemma not_managed_is_skipped_witness :
  tags eip_untagged = inr None
  /\ tags eip_other = inr (Some [tag "ManagedBy" "Terraform"])
  /\ loop_body (sample_config false) eip_untagged initial_state
     = (mkState (mkCounters 1 1 0 0 0 0 0) [] [], inr tt)
  /\ loop_body (sample_config false) eip_other initial_state
     = (mkState (mkCounters 1 1 0 0 0 0 0) [] [], inr tt).
Proof.
  split; [reflexivity|]. split; [reflexivity|]. split.
  - apply (not_managed_is_skipped (sample_config false) eip_untagged None initial_state);
      [reflexivity|left; reflexivity].
  - apply (not_managed_is_skipped (sample_config false) eip_other
             (Some [tag "ManagedBy" "Terraform"]) initial_state); [reflexivity|].
    right; right; right. exists "Terraform". split; [reflexivity|discriminate].
Defined.

(** A tag list that is tagged for protection and for nothing else is still
    not managed. *)
Example protection_without_management :
  loop_body (sample_config false)
    (mkVpcAddress "eipalloc-08" (inr (Some [tag "Protection" "DoNotRelease"]))
       (inr (Some "i-0abc")) (inl access_denied))
    initial_state
  = (mkState (mkCounters 1 1 0 0 0 0 0) [] [], inr tt).
Proof. vm_compute. reflexivity. Qed.

(** C6. A managed address that carries the protection tag is counted as
    protected and [release()] is not called, whether or not it is
    associated: the step does not even read [instance_id]. *)
Theorem protected_is_skipped cfg (a : VpcAddress) (x : option (list Tag)) st :
  tags a = inr x -> managed cfg x -> protected cfg x ->
  let r := loop_body cfg a st in
  r.2 = inr tt
  /\ counted_in BProtected st r.1
  /\ release_calls r.1 = release_calls st
  /\ exists line,
       stdout r.1 = stdout st ++ [line]
       /\ has_message "Skipping protected Elastic IP" line = true.
Proof.
  intros Ht Hm Hp r. subst r.
  rewrite (loop_body_continue cfg a st _
             (process_protected cfg a x (after_scanned st) Ht Hm Hp)).
  simpl. repeat split. eexists. split; reflexivity.
Qed.

Lemma protected_is_skipped_witness :
  instance_id eip_protected = inr None
  /\ managed (sample_config false) protected_tags
  /\ protected (sample_config false) protected_tags
  /\ (loop_body (sample_config false) eip_protected initial_state).2 = inr tt
  /\ counted_in BProtected initial_state
       (loop_body (sample_config false) eip_protected initial_state).1
  /\ release_calls (loop_body (sample_config false) eip_protected initial_state).1 = [].
Proof.
  split; [reflexivity|]. split; [reflexivity|]. split; [reflexivity|].
  pose proof (protected_is_skipped (sample_config false) eip_protected protected_tags
                initial_state eq_refl eq_refl eq_refl) as (H1 & H2 & H3 & _).
  split; [exact H1|]. split; [exact H2|exact H3].
Defined.

(** On the way to a release the counter of associated addresses stays. *)
Lemma unassociated_not_counted_associated cfg a x st :
  tags a = inr x -> managed cfg x -> ¬ protected cfg x -> instance_id a = inr None ->
  associated (counters (loop_body cfg a st).1) = associated (counters st).
Proof.
  intros Ht Hm Hp Hi. destruct (dry_run cfg) eqn:Hd.
  - rewrite (loop_body_continue cfg a st _
               (process_would_release cfg a x (after_scanned st) Ht Hm Hp Hi Hd)).
    reflexivity.
  - pose proof (process_release cfg a x (after_scanned st) Ht Hm Hp Hi Hd) as H.
    cbv zeta in H. destruct (release a) as [e|[]].
    + rewrite (loop_body_raise cfg a st _ e H).
      rewrite (proj2 (handle_error_frame a e _)). reflexivity.
    + rewrite (loop_body_continue cfg a st _ H). reflexivity.
Qed.

(** C8, as written, fails: a managed, unprotected address whose
    [instance_id] is the empty string is counted as associated, and the
    empty string is not a non-empty instance id. *)
Lemma associated_iff_non_empty_fails :
  ¬ associated_iff_non_empty (sample_config false) eip_empty_instance initial_state.
Proof.
  intros [H _]. destruct H as (s & Hs & Hne); [vm_compute; reflexivity|].
  injection Hs as <-. apply Hne. reflexivity.
Qed.

(** C8, amended. A managed, unprotected address is counted as associated
    exactly when its [instance_id] is not [None], whatever the string, the
    empty string included; [scanned] and [associated] then go up by one, no
    other counter moves, nothing is printed and [release()] is not called. *)
Theorem associated_iff_instance_id cfg (a : VpcAddress) (x : option (list Tag))
    (iid : option string) st :
  tags a = inr x -> managed cfg x -> ¬ protected cfg x -> instance_id a = inr iid ->
  let r := loop_body cfg a st in
  let c := counters st in
  (associated (counters r.1) = associated c + 1 <-> iid ≠ None)
  /\ (iid ≠ None ->
      r = (mkState
             (mkCounters (scanned c + 1) (skipped_not_managed c) (skipped_protected c)
                (associated c + 1) (would_release c) (released c) (per_eip_errors c))
             (stdout st) (release_calls st),
           inr tt)).
Proof.
  intros Ht Hm Hp Hi r c.
  assert (Hyes : iid ≠ None ->
                 r = (mkState (bump BAssociated (incr_scanned (counters st))) (stdout st)
                        (release_calls st), inr tt)).
  { intros Hne. destruct iid as [i|]; [|contradiction]. subst r.
    apply loop_body_continue.
    exact (process_associated cfg a x i (after_scanned st) Ht Hm Hp Hi). }
  split; [|exact Hyes]. split.
  - intros Hc ->.
    pose proof (unassociated_not_counted_associated cfg a x st Ht Hm Hp Hi) as Ha.
    fold r in Ha. subst c. lia.
  - intros Hne. rewrite (Hyes Hne). reflexivity.
Qed.

Lemma associated_iff_instance_id_witness :
  loop_body (sample_config false) eip_associated initial_state
  = (mkState (mkCounters 1 0 0 1 0 0 0) [] [], inr tt)
  /\ loop_body (sample_config false) eip_empty_instance initial_state
     = (mkState (mkCounters 1 0 0 1 0 0 0) [] [], inr tt)
  /\ associated (counters (loop_body (sample_config false) eip_idle initial_state).1) ≠ 1.
Proof.
  split; [|split].
  - apply (associated_iff_instance_id (sample_config false) eip_associated managed_tags
             (Some "i-0abc") initial_state); try reflexivity; vm_compute; discriminate.
  - apply (associated_iff_instance_id (sample_config false) eip_empty_instance managed_tags
             (Some "") initial_state); try reflexivity; vm_compute; discriminate.
  - intros H.
    apply (associated_iff_instance_id (sample_config false) eip_idle managed_tags
             None initial_state) in H; try reflexivity.
    + apply H. reflexivity.
    + vm_compute. discriminate.
Defined.

(** An [instance_id] that is the empty string is not [None]: the address
    counts as associated. *)
Example empty_instance_id_is_associated :
  loop_body (sample_config false) eip_empty_instance initial_state
  = (mkState (mkCounters 1 0 0 1 0 0 0) [] [], inr tt).
Proof. vm_compute. reflexivity. Qed.



(** When [release()] raises, the call was still made once. *)
Example release_called_once_when_it_raises :
  release_calls (loop_body (sample_config false) eip_throttled initial_state).1
  = ["eipalloc-06"].
Proof. vm_compute. reflexivity. Qed.

(** Over a whole run [release()] is called on addresses of the run, in
    order, at most once per place in the sequence. *)
Lemma reconcile_calls cfg addresses st :
  exists calls,
    release_calls (reconcile cfg addresses st).1 = release_calls st ++ calls
    /\ calls `sublist_of` map allocation_id addresses.
Proof.
  revert st. induction addresses as [|a rest IH]; intros st.
  - exists []. rewrite reconcile_nil, app_nil_r. split; [reflexivity|constructor].
  - rewrite reconcile_cons.
    destruct (loop_body_shape cfg a st)
      as (lines & calls & _ & Hc & [(b & ->)|(e & c & _ & ->)]).
    + destruct (IH (extends st (bump b (incr_scanned (counters st))) lines calls))
        as (calls' & -> & Hsub).
      exists (calls ++ calls'). simpl. rewrite <- app_assoc. split; [reflexivity|].
      destruct Hc as [->| ->]; simpl; [by apply sublist_cons|by apply sublist_skip].
    + exists calls. split; [reflexivity|].
      destruct Hc as [->| ->]; [apply sublist_nil_l|].
      simpl. apply sublist_skip, sublist_nil_l.
Qed.

(** ** Errors *)

(** Settle a closed decidable proposition by running its decision. *)
Ltac by_decision :=
  match goal with
  | |- ¬ ?P => apply (bool_decide_eq_false_1 P); vm_compute; reflexivity
  | |- ?P => apply (bool_decide_eq_true_1 P); vm_compute; reflexivity
  end.

Example fatal_codes :
  fatal access_denied /\ ¬ fatal throttled
  /\ ¬ fatal (ClientError (mkResponse None) "no Error member")
  /\ ¬ fatal (ClientError (mkResponse (Some (mkErrorDict None))) "no Code member")
  /\ fatal (PyException "TypeError" "unsupported operand").
Proof. repeat split; by_decision. Qed.

(** C3. When processing an address raises [e], the step raises (the same
    [e], to the caller of the loop, and the addresses after this one are not
    looked at) exactly when [e] is fatal: a [ClientError] with one of the
    authorization or credential codes, or an exception that is no
    [ClientError].  Any other [ClientError] is logged with the allocation id
    and the error code, counted in [per_eip_errors], and the loop goes on
    with the next address. *)
Theorem error_classification cfg (a : VpcAddress) st st1 (e : exn) :
  process_address cfg a (after_scanned st) = (st1, inl e) ->
  let r := loop_body cfg a st in
  ((exists e', r.2 = inl e') <-> fatal e)
  /\ (fatal e ->
      r.2 = inl e /\ forall rest, reconcile cfg (a :: rest) st = (r.1, inl e))
  /\ (¬ fatal e ->
      r.2 = inr tt
      /\ counters r.1 = bump BErrors (counters st1)
      /\ release_calls r.1 = release_calls st1
      /\ (exists response message,
            e = ClientError response message
            /\ stdout r.1
               = stdout st1 ++
                 [log_event "ERROR" "AWS ClientError while processing Elastic IP"
                    [("allocation_id", JStr (allocation_id a));
                     ("error_code", JStr (error_code response));
                     ("error_message", JStr message)]])
      /\ forall rest, reconcile cfg (a :: rest) st = reconcile cfg rest r.1).
Proof.
  intros Hp r.
  assert (Hr : r = handle_error a e st1) by exact (loop_body_raise cfg a st st1 e Hp).
  assert (Hfatal : fatal e -> r.2 = inl e /\ forall rest, reconcile cfg (a :: rest) st = (r.1, inl e)).
  { intros Hf.
    assert (H2 : r.2 = inl e).
    { rewrite Hr. destruct (handle_shape a e st1) as (lines & _ & [(Hn & _)|(_ & c & _ & ->)]);
        [contradiction|reflexivity]. }
    split; [exact H2|]. intros rest. rewrite reconcile_cons. fold r.
    destruct r as [st' res]. simpl in H2. subst res. reflexivity. }
  assert (Hrec : ¬ fatal e ->
      r.2 = inr tt
      /\ counters r.1 = bump BErrors (counters st1)
      /\ release_calls r.1 = release_calls st1
      /\ (exists response message,
            e = ClientError response message
            /\ stdout r.1
               = stdout st1 ++
                 [log_event "ERROR" "AWS ClientError while processing Elastic IP"
                    [("allocation_id", JStr (allocation_id a));
                     ("error_code", JStr (error_code response));
                     ("error_message", JStr message)]])
      /\ forall rest, reconcile cfg (a :: rest) st = reconcile cfg rest r.1).
  { intros Hn. destruct e as [response message|n m|n m]; try (exfalso; apply Hn; exact I).
    simpl in Hn.
    assert (Hh := handle_recoverable a response message st1 Hn).
    rewrite <- Hr in Hh.
    split; [rewrite Hh; reflexivity|]. split; [rewrite Hh; reflexivity|].
    split; [rewrite Hh; reflexivity|].
    split; [exists response, message; split; [reflexivity|rewrite Hh; reflexivity]|].
    intros rest. rewrite reconcile_cons. fold r. rewrite Hh. reflexivity. }
  split; [|split; assumption]. split.
  - intros [e' He']. destruct (decide (fatal e)) as [Hf|Hn]; [exact Hf|].
    destruct (Hrec Hn) as (H2 & _). congruence.
  - intros Hf. exists e. apply Hfatal, Hf.
Qed.

Lemma error_classification_witness :
  let r := loop_body (sample_config false) eip_throttled initial_state in
  let r' := loop_body (sample_config false) eip_denied initial_state in
  (¬ fatal throttled /\ r.2 = inr tt /\ per_eip_errors (counters r.1) = 1)
  /\ (fatal access_denied /\ r'.2 = inl access_denied).
Proof.
  split.
  - pose proof (error_classification (sample_config false) eip_throttled initial_state
                  (mkState (mkCounters 1 0 0 0 0 0 0)
                     [log_event "INFO" "Releasing unassociated Elastic IP"
                        [("allocation_id", JStr "eipalloc-06"); ("action", JStr "release");
                         ("dry_run", JBool false)]]
                     ["eipalloc-06"])
                  throttled eq_refl) as (_ & _ & H).
    assert (Hn : ¬ fatal throttled)
      by by_decision.
    destruct (H Hn) as (H1 & H2 & _).
    split; [exact Hn|]. split; [exact H1|]. rewrite H2. reflexivity.
  - pose proof (error_classification (sample_config false) eip_denied initial_state
                  (mkState (mkCounters 1 0 0 0 0 0 0)
                     [log_event "INFO" "Releasing unassociated Elastic IP"
                        [("allocation_id", JStr "eipalloc-07"); ("action", JStr "release");
                         ("dry_run", JBool false)]]
                     ["eipalloc-07"])
                  access_denied eq_refl) as (_ & H & _).
    assert (Hf : fatal access_denied)
      by by_decision.
    split; [exact Hf|]. exact (proj1 (H Hf)).
Defined.

(** C5, as written, fails: an [AccessDenied] on [release()] is fatal, and
    [per_eip_errors] has gone up by one when the exception leaves the loop. *)
Lemma counts_only_recoverable_fails :
  ¬ counts_only_recoverable (sample_config false) eip_denied initial_state.
Proof.
  intros [H _]. destruct H as (st1 & e & Hp & Hn); [vm_compute; reflexivity|].
  vm_compute in Hp. injection Hp as _ <-.
  apply Hn. by_decision.
Qed.

Example fatal_client_error_is_counted :
  loop_body (sample_config false) eip_denied initial_state
  = (mkState (mkCounters 1 0 0 0 0 0 1)
       [log_event "INFO" "Releasing unassociated Elastic IP"
          [("allocation_id", JStr "eipalloc-07"); ("action", JStr "release");
           ("dry_run", JBool false)];
        log_event "ERROR" "AWS ClientError while processing Elastic IP"
          [("allocation_id", JStr "eipalloc-07"); ("error_code", JStr "AccessDenied");
           ("error_message", JStr (exn_str access_denied))]]
       ["eipalloc-07"],
     inl access_denied).
Proof. vm_compute. reflexivity. Qed.

Lemma process_raise_counters cfg a st st1 e :
  process_address cfg a st = (st1, inl e) -> counters st1 = counters st.
Proof.
  destruct (process_shape cfg a st) as (lines & calls & _ & _ & [(b & _ & ->)|(e' & ->)]);
    [discriminate|]. intros [= <- _]. reflexivity.
Qed.

Lemma process_continue_counters cfg a st st1 :
  process_address cfg a st = (st1, inr tt) ->
  per_eip_errors (counters st1) = per_eip_errors (counters st).
Proof.
  destruct (process_shape cfg a st) as (lines & calls & _ & _ & [(b & Hb & ->)|(e' & ->)]);
    [|discriminate]. intros [= <-]. destruct b; try reflexivity. contradiction.
Qed.

(** C5, amended. In a step [per_eip_errors] goes up, by one, exactly when
    processing the address raised a [ClientError], whatever its code: a
    recoverable error is counted, and so is a [ClientError] with a fatal
    code, just before it is raised again; an exception that is no
    [ClientError] is not counted.  In a step after which the loop goes on,
    the counter goes up exactly when the error was recoverable. *)
Theorem client_errors_are_counted cfg (a : VpcAddress) st :
  let r := loop_body cfg a st in
  let raised_client_error :=
    exists st1 response message,
      process_address cfg a (after_scanned st) = (st1, inl (ClientError response message)) in
  (per_eip_errors (counters r.1) = per_eip_errors (counters st) + 1 <-> raised_client_error)
  /\ (¬ raised_client_error -> per_eip_errors (counters r.1) = per_eip_errors (counters st))
  /\ (r.2 = inr tt ->
      (per_eip_errors (counters r.1) = per_eip_errors (counters st) + 1
       <-> exists st1 e,
             process_address cfg a (after_scanned st) = (st1, inl e) /\ ¬ fatal e)).
Proof.
  intros r raised.
  assert (Hcases :
    (raised /\ per_eip_errors (counters r.1) = per_eip_errors (counters st) + 1)
    \/ (¬ raised /\ per_eip_errors (counters r.1) = per_eip_errors (counters st))).
  { destruct (process_address cfg a (after_scanned st)) as [st1 [e|[]]] eqn:Hp.
    - pose proof (process_raise_counters _ _ _ _ _ Hp) as Hc.
      assert (Hr : r = handle_error a e st1) by exact (loop_body_raise cfg a st st1 e Hp).
      destruct e as [response message|n m|n m].
      + left. split; [exists st1, response, message; reflexivity|].
        rewrite Hr.
        destruct (decide (error_code response ∈ FATAL_CODES)) as [Hf|Hf].
        * rewrite (handle_fatal_code a response message st1 Hf). simpl. rewrite Hc. reflexivity.
        * rewrite (handle_recoverable a response message st1 Hf). simpl. rewrite Hc. reflexivity.
      + right. split; [intros (? & ? & ? & [=])|]. rewrite Hr, handle_unexpected.
        simpl. rewrite Hc. reflexivity.
      + right. split; [intros (? & ? & ? & [=])|]. rewrite Hr, handle_base_exception.
        simpl. rewrite Hc. reflexivity.
    - right. split; [intros (? & ? & ? & [=])|].
      unfold r. rewrite (loop_body_continue cfg a st st1 Hp).
      apply (process_continue_counters cfg a _ _ Hp). }
  split; [|split].
  - destruct Hcases as [[H1 H2]|[H1 H2]]; split; auto; try lia. contradiction.
  - destruct Hcases as [[H1 H2]|[H1 H2]]; auto. contradiction.
  - intros Hok. split.
    + intros Hup. destruct Hcases as [[(st1 & response & message & Hp) _]|[_ H2]]; [|lia].
      exists st1, (ClientError response message). split; [exact Hp|].
      intros Hf.
      pose proof (loop_body_raise cfg a st st1 _ Hp) as Hr. fold r in Hr.
      rewrite Hr, (handle_fatal_code a response message st1 Hf) in Hok.
      discriminate Hok.
    + intros (st1 & e & Hp & Hn).
      destruct e as [response message|n m|n m]; try (exfalso; apply Hn; exact I).
      destruct Hcases as [[_ H2]|[H1 _]]; [exact H2|].
      exfalso. apply H1. exists st1, response, message. exact Hp.
Qed.

Lemma client_errors_are_counted_witness :
  per_eip_errors (counters (loop_body (sample_config false) eip_throttled initial_state).1) = 1
  /\ per_eip_errors (counters (loop_body (sample_config false) eip_denied initial_state).1) = 1.
Proof.
  split.
  - apply (proj1 (client_errors_are_counted (sample_config false) eip_throttled initial_state)).
    exists (mkState (mkCounters 1 0 0 0 0 0 0)
              [log_event "INFO" "Releasing unassociated Elastic IP"
                 [("allocation_id", JStr "eipalloc-06"); ("action", JStr "release");
                  ("dry_run", JBool false)]]
              ["eipalloc-06"]).
    exists throttled_response, (exn_str throttled). reflexivity.
  - apply (proj1 (client_errors_are_counted (sample_config false) eip_denied initial_state)).
    exists (mkState (mkCounters 1 0 0 0 0 0 0)
              [log_event "INFO" "Releasing unassociated Elastic IP"
                 [("allocation_id", JStr "eipalloc-07"); ("action", JStr "release");
                  ("dry_run", JBool false)]]
              ["eipalloc-07"]).
    exists denied_response, (exn_str access_denied). reflexivity.
Defined.

(** An exception that is no [ClientError] leaves the counter alone. *)
Example unexpected_error_is_not_counted :
  loop_body (sample_config false)
    (mkVpcAddress "eipalloc-10" (inr managed_tags)
       (inl (PyException "KeyError" "instance_id")) (inr tt))
    initial_state
  = (mkState (mkCounters 1 0 0 0 0 0 0)
       [log_event "ERROR" "Unexpected error while processing Elastic IP"
          [("allocation_id", JStr "eipalloc-10"); ("error_type", JStr "KeyError");
           ("error_message", JStr "instance_id")]]
       [],
     inl (PyException "KeyError" "instance_id")).
Proof. vm_compute. reflexivity. Qed.

(** ** The whole handler *)

(** A loop that a raise has ended stopped at one address: the addresses
    before it went through, the step on it raised, and the exception is
    fatal. *)
Lemma reconcile_abort cfg addresses st st' e :
  reconcile cfg addresses st = (st', inl e) ->
  fatal e
  /\ exists pre a post st1,
       addresses = pre ++ a :: post
       /\ reconcile cfg pre st = (st1, inr tt)
       /\ loop_body cfg a st1 = (st', inl e).
Proof.
  revert st. induction addresses as [|a rest IH]; intros st.
  - rewrite reconcile_nil. discriminate.
  - rewrite reconcile_cons.
    destruct (loop_body_shape cfg a st)
      as (lines & calls & _ & _ & [(b & Hb)|(e' & c & Hf & Hb)]); rewrite Hb.
    + intros H. destruct (IH _ H) as (Hf & pre & a' & post & st1 & -> & Hpre & Ha).
      split; [exact Hf|]. exists (a :: pre), a', post, st1.
      split; [reflexivity|]. split; [|exact Ha].
      rewrite reconcile_cons, Hb. exact Hpre.
    + intros [= <- <-]. split; [exact Hf|].
      exists [], a, rest, st. split; [reflexivity|]. split; [reflexivity|exact Hb].
Qed.

(** The loop prints neither the end-of-run line nor the metrics record. *)
Lemma reconcile_quiet cfg addresses st :
  exists lines, stdout (reconcile cfg addresses st).1 = stdout st ++ lines /\ quiet lines.
Proof.
  revert st. induction addresses as [|a rest IH]; intros st.
  - exists []. rewrite reconcile_nil, app_nil_r. split; [reflexivity|apply quiet_nil].
  - rewrite reconcile_cons.
    destruct (loop_body_shape cfg a st)
      as (lines & calls & Hq & _ & [(b & ->)|(e & c & _ & ->)]).
    + destruct (IH (extends st (bump b (incr_scanned (counters st))) lines calls))
        as (lines' & -> & Hq').
      exists (lines ++ lines'). simpl. rewrite <- app_assoc.
      split; [reflexivity|by apply quiet_app].
    + exists lines. split; [reflexivity|exact Hq].
Qed.

Lemma start_cases cfg context :
  exists line,
    is_report line = false /\
    forall ec2 st,
      start cfg context ec2 st
      = match ec2 with
        | inl e => (mkState (counters st) (stdout st ++ [line]) (release_calls st), inl e)
        | inr _ => (mkState zero_counters (stdout st ++ [line]) (release_calls st), inr tt)
        end.
Proof.
  eexists. split; [|intros [e|[]] st; reflexivity]. reflexivity.
Qed.

Lemma start_returns cfg context st :
  exists line,
    is_report line = false
    /\ start cfg context (inr tt) st
       = (mkState zero_counters (stdout st ++ [line]) (release_calls st), inr tt).
Proof. eexists. split; [|reflexivity]. reflexivity. Qed.

(** The end of the handler raises nothing: it prints the end-of-run line
    with the counters, then the metrics record when metrics are on, and
    returns the fixed response. *)
Lemma finish_returns cfg context now_ms st :
  exists metrics_lines,
    finish cfg context now_ms st
    = (mkState (counters st)
         (stdout st
          ++ log_event "INFO" "ManageEIPs completed" (summary_fields cfg (counters st))
             :: metrics_lines)
         (release_calls st),
       inr OK_RESPONSE)
    /\ is_summary_line
         (log_event "INFO" "ManageEIPs completed" (summary_fields cfg (counters st))) = true
    /\ if METRICS_ENABLED cfg
       then exists line, metrics_lines = [line] /\ is_metrics_line line = true
       else metrics_lines = [].
Proof.
  unfold finish, emit_emf_metrics, get_counters. py_unfold.
  destruct (METRICS_ENABLED cfg).
  - eexists [_]. split; [|split; [reflexivity|eexists; split; [reflexivity|]]].
    + simpl. rewrite <- app_assoc. reflexivity.
    + reflexivity.
  - exists []. split; [|split; reflexivity]. reflexivity.
Qed.

Lemma lambda_handler_eq event context env now_ms ec2 addresses listing_end st :
  lambda_handler event context env now_ms ec2 addresses listing_end st
  = let cfg := config_of event env in
    match start cfg context ec2 st with
    | (st0, inr _) =>
        match reconcile cfg addresses st0 with
        | (st1, inr _) =>
            match listing_end with
            | inl e => (st1, inl e)
            | inr _ => finish cfg context now_ms st1
            end
        | (st1, inl e) => (st1, inl e)
        end
    | (st0, inl e) => (st0, inl e)
    end.
Proof.
  unfold lambda_handler. cbv zeta. unfold mbind, Py_bind.
  destruct (start (config_of event env) context ec2 st) as [st0 [e|[]]]; [reflexivity|].
  destruct (reconcile (config_of event env) addresses st0) as [st1 [e|[]]]; [reflexivity|].
  destruct listing_end as [e|[]]; reflexivity.
Qed.

(** A run whose loop ends without a raise, and whose listing ends without
    one, prints the end-of-run line with the final counters and returns the
    fixed response. *)
Lemma completed_run_reports event context env now_ms addresses st st1 :
  let cfg := config_of event env in
  reconcile cfg addresses (start cfg context (inr tt) st).1 = (st1, inr tt) ->
  let r := lambda_handler event context env now_ms (inr tt) addresses (inr tt) st in
  r.2 = inr OK_RESPONSE
  /\ counters r.1 = counters st1
  /\ log_event "INFO" "ManageEIPs completed" (summary_fields cfg (counters st1))
     ∈ stdout r.1.
Proof.
  intros cfg Hrun r. subst r. rewrite lambda_handler_eq. cbv zeta. fold cfg.
  destruct (start_returns cfg context st) as (line & _ & Hs).
  rewrite Hs in Hrun |- *. simpl in Hrun. rewrite Hrun.
  destruct (finish_returns cfg context now_ms st1) as (ml & -> & _).
  simpl. repeat split. apply elem_of_app. right. left.
Qed.

(** The scenario of five addresses, without dry-run. *)
Example five_addresses_run :
  let r :=
    lambda_handler {["dry_run" := PyStr "false"]} None ∅ 1700000000000 (inr tt)
      five_addresses (inr tt) initial_state in
  r.2 = inr OK_RESPONSE
  /\ counters r.1 = mkCounters 5 2 1 1 0 1 0
  /\ release_calls r.1 = ["eipalloc-05"].
Proof. vm_compute. repeat split. Qed.

(** C4, as written, fails: with [AccessDenied] on the second of three
    addresses the handler raises and no end-of-run line was printed. *)
Lemma summary_reported_on_abort_fails :
  ¬ summary_reported_on_abort {["dry_run" := PyBool false]} None ∅ 1700000000000
      [eip_idle; eip_denied; eip_idle].
Proof.
  intros H.
  set (r := lambda_handler {["dry_run" := PyBool false]} None ∅ 1700000000000 (inr tt)
              [eip_idle; eip_denied; eip_idle] (inr tt) initial_state).
  assert (Hr : r = (r.1, inl access_denied)) by (vm_compute; reflexivity).
  destruct (H _ _ Hr) as (line & Hin & Hs).
  assert (Hq : forallb (fun l => negb (is_summary_line l)) (stdout r.1) = true)
    by (vm_compute; reflexivity).
  rewrite forallb_forall in Hq. apply list_elem_of_In, Hq in Hin.
  rewrite Hs in Hin. discriminate Hin.
Qed.

Example aborted_run :
  let r :=
    lambda_handler {["dry_run" := PyBool false]} None ∅ 1700000000000 (inr tt)
      [eip_idle; eip_denied; eip_idle] (inr tt) initial_state in
  r.2 = inl access_denied
  /\ counters r.1 = mkCounters 2 0 0 0 0 1 1
  /\ release_calls r.1 = ["eipalloc-05"; "eipalloc-07"]
  /\ map (has_message "ManageEIPs completed") (stdout r.1) = [false; false; false; false]
  /\ map is_metrics_line (stdout r.1) = [false; false; false; false].
Proof. vm_compute. repeat split. Qed.

(** C4, amended. When the step on an address raises, the error being fatal,
    the loop stops there and the handler raises the same exception to its
    caller, whatever addresses follow and however the listing would have
    ended: the run ends in the state that step left.  The run has printed
    neither the end-of-run log line nor the metrics record: the counters are
    not reported. *)
Theorem fatal_abort_skips_summary (event : gmap string pyval) (context : option Context)
    (env : gmap string string) (now_ms : Z) (pre : list VpcAddress) (a : VpcAddress)
    (post : list VpcAddress) (listing_end : exn + unit) st st0 st1 st' (e : exn) :
  let cfg := config_of event env in
  start cfg context (inr tt) st = (st0, inr tt) ->
  reconcile cfg pre st0 = (st1, inr tt) ->
  loop_body cfg a st1 = (st', inl e) ->
  fatal e
  /\ reconcile cfg (pre ++ a :: post) st0 = (st', inl e)
  /\ lambda_handler event context env now_ms (inr tt) (pre ++ a :: post) listing_end st
     = (st', inl e)
  /\ exists lines, stdout st' = stdout st ++ lines /\ quiet lines.
Proof.
  intros cfg Hs Hpre Ha.
  assert (Hloop : reconcile cfg (pre ++ a :: post) st0 = (st', inl e)).
  { rewrite reconcile_app, Hpre, reconcile_cons, Ha. reflexivity. }
  destruct (loop_body_shape cfg a st1)
    as (la & ka & Hqa & _ & [(b & Hb)|(e' & c & Hf & Hb)]); rewrite Hb in Ha;
    [discriminate|].
  injection Ha as <- <-.
  split; [exact Hf|]. split; [exact Hloop|]. split.
  - rewrite lambda_handler_eq. cbv zeta. fold cfg. rewrite Hs, Hloop. reflexivity.
  - destruct (start_returns cfg context st) as (line & Hline & Hs').
    rewrite Hs' in Hs. injection Hs as <-.
    destruct (reconcile_quiet cfg pre
                (mkState zero_counters (stdout st ++ [line]) (release_calls st)))
      as (lp & Hlp & Hqp).
    rewrite Hpre in Hlp. simpl in Hlp.
    exists (line :: lp ++ la). simpl. rewrite Hlp, <- !app_assoc. split; [reflexivity|].
    constructor; [exact Hline|by apply quiet_app].
Qed.

Lemma fatal_abort_skips_summary_witness :
  let r :=
    lambda_handler {["dry_run" := PyBool false]} None ∅ 1700000000000 (inr tt)
      ([eip_idle] ++ eip_denied :: [eip_idle]) (inl throttled) initial_state in
  r.2 = inl access_denied
  /\ fatal access_denied
  /\ exists lines, stdout r.1 = [] ++ lines /\ quiet lines.
Proof.
  intros r.
  set (cfg := config_of {["dry_run" := PyBool false]} ∅).
  set (st0 := (start cfg None (inr tt) initial_state).1).
  set (st1 := (reconcile cfg [eip_idle] st0).1).
  set (st' := (loop_body cfg eip_denied st1).1).
  destruct (fatal_abort_skips_summary {["dry_run" := PyBool false]} None ∅ 1700000000000
              [eip_idle] eip_denied [eip_idle] (inl throttled)
              initial_state st0 st1 st' access_denied)
    as (Hf & _ & Hr & Hq); try (vm_compute; reflexivity).
  fold r in Hr. rewrite Hr. simpl. split; [reflexivity|]. split; [exact Hf|exact Hq].
Defined.

(** An exception that leaves the loop leaves the handler: nothing between
    the loop and the caller catches it, and nothing more is printed. *)
Lemma handler_propagates event context env now_ms addresses listing_end st st' e :
  reconcile (config_of event env) addresses
    (start (config_of event env) context (inr tt) st).1
  = (st', inl e) ->
  lambda_handler event context env now_ms (inr tt) addresses listing_end st = (st', inl e).
Proof.
  intros Hrun. rewrite lambda_handler_eq. cbv zeta.
  destruct (start_returns (config_of event env) context st) as (line & _ & Hs).
  rewrite Hs in Hrun |- *. simpl in Hrun. rewrite Hrun. reflexivity.
Qed.

(** Creating the resource or the listing can raise too, outside the [try]:
    the exception leaves the handler, counted nowhere and without a line in
    the log. *)
Example listing_raises :
  let r :=
    lambda_handler {["dry_run" := PyBool false]} None ∅ 1700000000000 (inr tt)
      [eip_idle] (inl access_denied) initial_state in
  r.2 = inl access_denied
  /\ counters r.1 = mkCounters 1 0 0 0 0 1 0
  /\ length (stdout r.1) = 2.
Proof. vm_compute. repeat split. Qed.

(** * Further properties *)

(** ** Dicts *)

Lemma dict_get_set_eq k v d : dict_get k (dict_set k v d) = Some v.
Proof.
  induction d as [|[k' v'] d IH]; simpl.
  - rewrite String.eqb_refl. reflexivity.
  - destruct (String.eqb_spec k' k) as [->|Hne]; simpl.
    + rewrite String.eqb_refl. reflexivity.
    + destruct (String.eqb_spec k' k); [contradiction|exact IH].
Qed.

Lemma dict_get_set_ne k k' v d : k ≠ k' -> dict_get k' (dict_set k v d) = dict_get k' d.
Proof.
  intros Hne. induction d as [|[k0 v0] d IH]; simpl.
  - destruct (String.eqb_spec k k'); [contradiction|reflexivity].
  - destruct (String.eqb_spec k0 k) as [->|H0]; simpl.
    + destruct (String.eqb_spec k k'); [contradiction|reflexivity].
    + destruct (String.eqb_spec k0 k'); [reflexivity|exact IH].
Qed.

Lemma dict_get_snoc k d k' v' :
  dict_get k (d ++ [(k', v')])
  = match dict_get k d with
    | Some v => Some v
    | None => if String.eqb k' k then Some v' else None
    end.
Proof.
  induction d as [|[k0 v0] d IH]; simpl; [reflexivity|].
  destruct (String.eqb k0 k); [reflexivity|exact IH].
Qed.

(** A key of [{**d, **extra}] has its last value in [extra], and else its
    value in [d]. *)
Lemma dict_get_update k d extra :
  dict_get k (dict_update d extra)
  = match dict_get k (rev extra) with
    | Some v => Some v
    | None => dict_get k d
    end.
Proof.
  unfold dict_update. revert d. induction extra as [|[k' v'] extra IH]; intros d; simpl.
  - reflexivity.
  - rewrite IH, dict_get_snoc.
    destruct (dict_get k (rev extra)); [reflexivity|].
    destruct (String.eqb_spec k' k) as [->|Hne].
    + apply dict_get_set_eq.
    + by apply dict_get_set_ne.
Qed.

Lemma dict_get_None k d : dict_get k d = None <-> k ∉ d.*1.
Proof.
  induction d as [|[k' v'] d IH]; simpl.
  - split; [intros _; apply not_elem_of_nil|reflexivity].
  - rewrite not_elem_of_cons. destruct (String.eqb_spec k' k) as [->|Hne].
    + split; [discriminate|intros [H _]; contradiction].
    + rewrite IH. split; [intros H; split; [congruence|exact H]|intros [_ H]; exact H].
Qed.

Lemma dict_get_elem k v d : NoDup d.*1 -> (k, v) ∈ d -> dict_get k d = Some v.
Proof.
  induction d as [|[k' v'] d IH]; simpl; intros Hnd Hin.
  - by apply elem_of_nil in Hin.
  - apply NoDup_cons in Hnd as [Hk Hnd]. apply elem_of_cons in Hin as [[= <- <-]|Hin].
    + rewrite String.eqb_refl. reflexivity.
    + destruct (String.eqb_spec k' k) as [->|Hne]; [|by apply IH].
      exfalso. apply Hk. apply list_elem_of_fmap. exists (k, v). split; [reflexivity|exact Hin].
Qed.

Lemma dict_set_fresh k v d : k ∉ d.*1 -> dict_set k v d = d ++ [(k, v)].
Proof.
  induction d as [|[k' v'] d IH]; simpl; intros H; [reflexivity|].
  apply not_elem_of_cons in H as [Hne H].
  destruct (String.eqb_spec k' k); [congruence|]. rewrite IH; [reflexivity|exact H].
Qed.

(** Merging keys that are new and distinct appends them, in order. *)
Lemma dict_update_fresh d extra :
  NoDup extra.*1 -> (forall k, k ∈ extra.*1 -> k ∉ d.*1) ->
  dict_update d extra = d ++ extra.
Proof.
  unfold dict_update. revert d. induction extra as [|[k v] extra IH]; intros d Hnd Hd; simpl.
  - rewrite app_nil_r. reflexivity.
  - simpl in Hnd. apply NoDup_cons in Hnd as [Hk Hnd].
    rewrite dict_set_fresh by (apply Hd; left).
    rewrite IH; [rewrite <- app_assoc; reflexivity|exact Hnd|].
    intros k' Hk'. rewrite fmap_app, elem_of_app. simpl. intros [H|H].
    + revert H. apply Hd. by right.
    + apply list_elem_of_singleton in H as ->. contradiction.
Qed.

Lemma dict_get_rev k d : NoDup d.*1 -> dict_get k (rev d) = dict_get k d.
Proof.
  induction d as [|[k' v'] d IH]; simpl; intros Hnd; [reflexivity|].
  apply NoDup_cons in Hnd as [Hk Hnd]. rewrite dict_get_snoc, (IH Hnd).
  destruct (String.eqb_spec k' k) as [->|Hne]; [|by destruct (dict_get k d)].
  apply dict_get_None in Hk. rewrite Hk. reflexivity.
Qed.

Lemma dict_get_rev_None k d : k ∉ d.*1 -> dict_get k (rev d) = None.
Proof.
  intros Hk. apply dict_get_None. intros Hin. apply Hk.
  apply list_elem_of_fmap in Hin as ([k' v'] & -> & Hin).
  apply list_elem_of_fmap. exists (k', v'). split; [reflexivity|].
  apply list_elem_of_In, in_rev, list_elem_of_In. exact Hin.
Qed.

(** ** The log line and the metrics record *)

(** X1. Called with keyword arguments (distinct keys, none of them [level]
    or [message], which Python binds to the two parameters), [log] prints
    one line: the level, the message, then the fields in the order of the
    call; it changes nothing else and raises nothing. *)
Theorem log_line_shape (level message : string) (fields : dict) st :
  NoDup fields.*1 -> "level" ∉ fields.*1 -> "message" ∉ fields.*1 ->
  log level message fields st
  = (mkState (counters st)
       (stdout st ++ [JObj (("level", JStr level) :: ("message", JStr message) :: fields)])
       (release_calls st),
     inr tt).
Proof.
  intros Hnd Hl Hm. unfold log, print, log_event.
  rewrite dict_update_fresh; [reflexivity|exact Hnd|].
  intros k Hk. simpl. rewrite !not_elem_of_cons. split; [|split; [|apply not_elem_of_nil]].
  - intros ->. contradiction.
  - intros ->. contradiction.
Qed.

Lemma log_line_shape_witness :
  log "INFO" "Skipping protected Elastic IP"
    [("allocation_id", JStr "eipalloc-03"); ("action", JStr "skip")] initial_state
  = (mkState zero_counters
       [JObj [("level", JStr "INFO"); ("message", JStr "Skipping protected Elastic IP");
              ("allocation_id", JStr "eipalloc-03"); ("action", JStr "skip")]]
       [],
     inr tt).
Proof.
  apply (log_line_shape "INFO" "Skipping protected Elastic IP"
           [("allocation_id", JStr "eipalloc-03"); ("action", JStr "skip")] initial_state).
  - by_decision.
  - by_decision.
  - by_decision.
Defined.

Lemma emit_emf_metrics_prints now_ms namespace dimensions metrics st :
  emit_emf_metrics now_ms namespace dimensions metrics st
  = (mkState (counters st)
       (stdout st ++
          [JObj
             (dict_update
                (dict_update
                   [("_aws",
                     JObj [("Timestamp", JNum now_ms);
                           ("CloudWatchMetrics",
                            JArr [JObj [("Namespace", JStr namespace);
                                        ("Dimensions",
                                         JArr [JArr (map (fun kv => JStr kv.1) dimensions)]);
                                        ("Metrics",
                                         JArr (map (fun kv =>
                                                      JObj [("Name", JStr kv.1);
                                                            ("Unit", JStr "Count")])
                                                 metrics))]])])]
                   dimensions)
                metrics)])
       (release_calls st),
     inr tt).
Proof. reflexivity. Qed.

(** X2. The metrics record holds every metric under its name, whatever the
    dimensions are called, and every dimension under its name unless a metric
    has the same name (the metric then wins); metric names and dimension
    names are the keys of dicts, so distinct among themselves. *)
Theorem emf_values now_ms namespace (dimensions metrics : dict) st :
  NoDup dimensions.*1 -> NoDup metrics.*1 ->
  exists ev,
    stdout (emit_emf_metrics now_ms namespace dimensions metrics st).1
    = stdout st ++ [JObj ev]
    /\ (forall k v, (k, v) ∈ metrics -> dict_get k ev = Some v)
    /\ (forall k v, (k, v) ∈ dimensions -> k ∉ metrics.*1 -> dict_get k ev = Some v).
Proof.
  intros Hd Hm. rewrite emit_emf_metrics_prints. eexists. split; [reflexivity|]. split.
  - intros k v Hin. rewrite dict_get_update, (dict_get_rev _ _ Hm).
    rewrite (dict_get_elem k v metrics Hm Hin). reflexivity.
  - intros k v Hin Hk. rewrite dict_get_update, (dict_get_rev _ _ Hm).
    apply dict_get_None in Hk. rewrite Hk.
    rewrite dict_get_update, (dict_get_rev _ _ Hd).
    rewrite (dict_get_elem k v dimensions Hd Hin). reflexivity.
Qed.

Lemma emf_values_witness :
  exists ev,
    stdout (emit_emf_metrics 1700000000000 "Custom/FinOps"
              [("FunctionName", JStr "ManageEIPs")]
              (metrics_of (mkCounters 5 2 1 1 0 1 0)) initial_state).1
    = [] ++ [JObj ev]
    /\ dict_get "EIPsReleased" ev = Some (JNum 1)
    /\ dict_get "FunctionName" ev = Some (JStr "ManageEIPs").
Proof.
  destruct (emf_values 1700000000000 "Custom/FinOps"
              [("FunctionName", JStr "ManageEIPs")]
              (metrics_of (mkCounters 5 2 1 1 0 1 0)) initial_state)
    as (ev & H1 & H2 & H3).
  - by_decision.
  - by_decision.
  - exists ev. split; [exact H1|]. split.
    + apply H2. apply list_elem_of_In. simpl. auto 10.
    + apply H3.
      * apply list_elem_of_In. simpl. auto.
      * by_decision.
Defined.

(** X3. Unless a dimension or a metric is itself called [_aws], the record
    keeps its [_aws] header: the timestamp, the namespace, the dimension
    names as one dimension set, and one definition per metric, in order,
    each with unit [Count]. *)
Theorem emf_header now_ms namespace (dimensions metrics : dict) st :
  "_aws" ∉ dimensions.*1 -> "_aws" ∉ metrics.*1 ->
  exists ev,
    stdout (emit_emf_metrics now_ms namespace dimensions metrics st).1
    = stdout st ++ [JObj ev]
    /\ is_metrics_line (JObj ev) = true
    /\ dict_get "_aws" ev
       = Some
           (JObj [("Timestamp", JNum now_ms);
                  ("CloudWatchMetrics",
                   JArr [JObj [("Namespace", JStr namespace);
                               ("Dimensions",
                                JArr [JArr (map (fun kv => JStr kv.1) dimensions)]);
                               ("Metrics",
                                JArr (map (fun kv =>
                                             JObj [("Name", JStr kv.1);
                                                   ("Unit", JStr "Count")])
                                        metrics))]])]).
Proof.
  intros Hd Hm. rewrite emit_emf_metrics_prints. eexists. split; [reflexivity|].
  assert (Hget : forall hdr,
             dict_get "_aws" (dict_update (dict_update [("_aws", hdr)] dimensions) metrics)
             = Some hdr).
  { intros hdr.
    rewrite dict_get_update, (dict_get_rev_None _ _ Hm).
    rewrite dict_get_update, (dict_get_rev_None _ _ Hd). reflexivity. }
  split; [|apply Hget].
  unfold is_metrics_line. rewrite Hget. reflexivity.
Qed.

Lemma emf_header_witness :
  exists ev,
    stdout (emit_emf_metrics 1700000000000 "Custom/FinOps"
              [("FunctionName", JStr "ManageEIPs")]
              (metrics_of zero_counters) initial_state).1
    = [] ++ [JObj ev]
    /\ is_metrics_line (JObj ev) = true.
Proof.
  destruct (emf_header 1700000000000 "Custom/FinOps"
              [("FunctionName", JStr "ManageEIPs")]
              (metrics_of zero_counters) initial_state)
    as (ev & H1 & H2 & _).
  - by_decision.
  - by_decision.
  - exists ev. split; assumption.
Defined.

(** ** More on tag lookup *)

(** X4. A value the lookup returns is the value of a tag of the collection
    that carries the key: the lookup makes nothing up, and [None] and the
    empty list give nothing. *)
Theorem get_tag_value_sound (x : option (list Tag)) (key v : string) :
  _get_tag_value x key = Some v ->
  exists l t, x = Some l /\ t ∈ l /\ Key t = Some key /\ Value t = Some v.
Proof.
  destruct x as [l|]; [|discriminate]. rewrite get_tag_value_scan. intros H.
  exists l. induction l as [|t l IH]; simpl in H; [discriminate|].
  destruct (decide (Key t = Some key)) as [Hk|_].
  - exists t. split; [reflexivity|]. split; [left|]. split; assumption.
  - destruct (IH H) as (t' & _ & Hin & Hk & Hv).
    exists t'. split; [reflexivity|]. split; [by right|]. split; assumption.
Qed.

Lemma get_tag_value_sound_witness :
  exists l t,
    protected_tags = Some l /\ t ∈ l /\ Key t = Some "Protection"
    /\ Value t = Some "DoNotRelease".
Proof.
  apply (get_tag_value_sound protected_tags "Protection" "DoNotRelease"). reflexivity.
Defined.

Lemma get_tag_value_absent_witness :
  _get_tag_value (Some [mkTag None (Some "orphan"); tag "Name" "nat"]) "ManagedBy" = None
  /\ _get_tag_value None "ManagedBy" = None.
Proof.
  split.
  - apply (get_tag_value_absent
             (Some [mkTag None (Some "orphan"); tag "Name" "nat"]) "ManagedBy").
    intros l t [= <-] Hin.
    apply elem_of_cons in Hin as [->|Hin]; [discriminate|].
    apply list_elem_of_singleton in Hin as ->. discriminate.
  - apply (get_tag_value_absent None "ManagedBy"). intros l t [=].
Defined.

(** X6. When the key occurs at most once, as in the tag lists AWS returns,
    the order of the tags does not matter: a reordered list gives the same
    value. *)
Theorem get_tag_value_permutation (l l' : list Tag) (key : string) :
  l ≡ₚ l' -> length (occurrences key l) <= 1 ->
  _get_tag_value (Some l') key = _get_tag_value (Some l) key.
Proof.
  intros Hp Hlen. rewrite !get_tag_value_scan, !scan_tags_head.
  assert (Ho : occurrences key l ≡ₚ occurrences key l')
    by (unfold occurrences; rewrite Hp; reflexivity).
  destruct (occurrences key l) as [|t [|t' o]]; simpl in Hlen; [| |lia].
  - apply Permutation_nil_l in Ho as <-. reflexivity.
  - apply Permutation_singleton_l in Ho as <-. reflexivity.
Qed.

Lemma get_tag_value_permutation_witness :
  _get_tag_value
    (Some [tag "Protection" "DoNotRelease"; tag "ManagedBy" "ManageEIPs"; tag "Name" "nat"])
    "ManagedBy"
  = _get_tag_value protected_tags "ManagedBy".
Proof.
  apply (get_tag_value_permutation
           [tag "Name" "nat"; tag "ManagedBy" "ManageEIPs"; tag "Protection" "DoNotRelease"]
           [tag "Protection" "DoNotRelease"; tag "ManagedBy" "ManageEIPs"; tag "Name" "nat"]
           "ManagedBy").
  - apply Permutation_sym.
    apply (Permutation_trans
             (l' := [tag "ManagedBy" "ManageEIPs"; tag "Protection" "DoNotRelease";
                     tag "Name" "nat"])).
    + apply perm_swap.
    + apply (Permutation_trans
               (l' := [tag "ManagedBy" "ManageEIPs"; tag "Name" "nat";
                       tag "Protection" "DoNotRelease"])).
      * apply perm_skip, perm_swap.
      * apply perm_swap.
  - vm_compute. lia.
Defined.

(** Where the key occurs twice the order does matter. *)
Example get_tag_value_order_matters :
  _get_tag_value (Some duplicate_tags) "Owner" = Some "first"
  /\ _get_tag_value (Some (rev duplicate_tags)) "Owner" = Some "second".
Proof. split; reflexivity. Qed.

(** ** The metrics switch *)

(** X7. Metrics are on when [METRICS_ENABLED] is not set, and otherwise
    exactly when its value is "true" in some mix of cases. *)
Theorem metrics_enabled_resolution (env : gmap string string) :
  metrics_enabled_of env
  = match env !! "METRICS_ENABLED" with
    | Some s => eq_ignore_case s "true"
    | None => true
    end.
Proof.
  unfold metrics_enabled_of, getenv. rewrite lower_is_true.
  destruct (env !! "METRICS_ENABLED"); reflexivity.
Qed.

Example metrics_enabled_samples :
  map (fun env => metrics_enabled_of env)
    [∅; {["METRICS_ENABLED" := "TRUE"]}; {["METRICS_ENABLED" := "false"]};
     {["METRICS_ENABLED" := "1"]}; {["METRICS_ENABLED" := ""]}]
  = [true; true; false; false; false].
Proof. vm_compute. reflexivity. Qed.

(** ** One turn of the loop, whatever the state *)

Lemma handle_error_turn a e :
  exists lines,
    quiet lines /\
    forall st,
      handle_error a e st = (extends st (count_error e (counters st)) lines [], after_error e).
Proof.
  destruct e as [r m|n m|n m].
  - eexists [_]. split.
    2:{ intros st. unfold extends, after_error, count_error. rewrite app_nil_r.
        destruct (decide (error_code r ∈ FATAL_CODES)) as [Hf|Hf].
        + rewrite (handle_fatal_code a r m st Hf).
          destruct (decide (fatal (ClientError r m))) as [_|Hn]; [reflexivity|].
          exfalso. exact (Hn Hf).
        + rewrite (handle_recoverable a r m st Hf).
          destruct (decide (fatal (ClientError r m))) as [Hy|_]; [|reflexivity].
          exfalso. exact (Hf Hy). }
    repeat constructor.
  - eexists [_]. split.
    2:{ intros st. unfold extends. rewrite app_nil_r. apply handle_unexpected. }
    repeat constructor.
  - exists []. split; [apply quiet_nil|]. intros st. rewrite extends_id. reflexivity.
Qed.

Lemma loop_body_continue_turn cfg a b lines calls :
  (forall st,
      process_address cfg a st = (extends st (bump b (counters st)) lines calls, inr tt)) ->
  forall st,
    loop_body cfg a st
    = (extends st (bump b (incr_scanned (counters st))) lines calls, inr tt).
Proof. intros H st. apply loop_body_continue. rewrite H. reflexivity. Qed.

Lemma loop_body_raise_turn cfg a e lines calls :
  quiet lines ->
  (forall st, process_address cfg a st = (extends st (counters st) lines calls, inl e)) ->
  exists lines',
    quiet lines' /\
    forall st,
      loop_body cfg a st
      = (extends st (count_error e (incr_scanned (counters st))) lines' calls, after_error e).
Proof.
  intros Hq H. destruct (handle_error_turn a e) as (le & Hqe & He).
  exists (lines ++ le). split; [by apply quiet_app|]. intros st.
  rewrite (loop_body_raise cfg a st _ e (H (after_scanned st))), He.
  rewrite extends_extends, app_nil_r. reflexivity.
Qed.

(** Every turn of the loop is one of the five ways of [turn]; what it prints,
    the calls it makes and what it does to the counters do not depend on the
    state it starts from. *)
Lemma loop_body_turn cfg a :
  exists lines calls f res,
    quiet lines /\ turn cfg a calls f res /\
    forall st,
      loop_body cfg a st = (extends st (f (incr_scanned (counters st))) lines calls, res).
Proof.
  destruct (tags a) as [e|x] eqn:Ht.
  { destruct (loop_body_raise_turn cfg a e [] []) as (lines & Hq & H).
    - apply quiet_nil.
    - intros st. rewrite extends_id. by apply process_tags_raise.
    - exists lines, [], (count_error e), (after_error e).
      split; [exact Hq|]. split; [apply turn_read_raises; by left|exact H]. }
  destruct (decide (managed cfg x)) as [Hm|Hm].
  2:{ exists [], [], (bump BNotManaged), (inr tt). split; [apply quiet_nil|].
      split; [constructor; auto|].
      apply loop_body_continue_turn. intros st. rewrite extends_nil.
      by eapply process_not_managed. }
  destruct (decide (protected cfg x)) as [Hp|Hp].
  { eexists [_], [], (bump BProtected), (inr tt). split; [|split; [constructor; auto|]].
    2:{ apply loop_body_continue_turn. intros st. unfold extends. rewrite app_nil_r.
        by eapply process_protected. }
    repeat constructor. }
  destruct (instance_id a) as [e|[i|]] eqn:Hi.
  { destruct (loop_body_raise_turn cfg a e [] []) as (lines & Hq & H).
    - apply quiet_nil.
    - intros st. rewrite extends_id. by eapply process_instance_id_raises.
    - exists lines, [], (count_error e), (after_error e).
      split; [exact Hq|]. split; [apply turn_read_raises; by right|exact H]. }
  { exists [], [], (bump BAssociated), (inr tt). split; [apply quiet_nil|].
    split; [constructor; auto|].
    apply loop_body_continue_turn. intros st. rewrite extends_nil.
    by eapply process_associated. }
  assert (Hr : releasable cfg a) by (exists x; auto).
  destruct (dry_run cfg) eqn:Hd.
  { eexists [_], [], (bump BWouldRelease), (inr tt).
    split; [|split; [by apply turn_would_release|]].
    2:{ apply loop_body_continue_turn. intros st. unfold extends. rewrite app_nil_r.
        by eapply process_would_release. }
    repeat constructor. }
  pose proof (fun st => process_release cfg a x st Ht Hm Hp Hi Hd) as Hrel. cbv zeta in Hrel.
  destruct (release a) as [e|[]] eqn:Hrl.
  - destruct (loop_body_raise_turn cfg a e 
                [log_event "INFO" "Releasing unassociated Elastic IP"
                   [("allocation_id", JStr (allocation_id a)); ("action", JStr "release");
                    ("dry_run", JBool false)]]
                [allocation_id a]) as (lines & Hq & H).
    + repeat constructor.
    + exact Hrel.
    + exists lines, [allocation_id a], (count_error e), (after_error e).
      split; [exact Hq|]. split; [by apply turn_release_raises|exact H].
  - eexists [_], [allocation_id a], (bump BReleased), (inr tt).
    split; [|split; [by apply turn_released|]].
    2:{ apply loop_body_continue_turn. exact Hrel. }
    repeat constructor.
Qed.

(** ** A run, whatever the state *)

(** The loop over a list of addresses is a [run_of] that list, from any
    state. *)
Lemma reconcile_run cfg addresses :
  exists lines calls f res,
    quiet lines /\ run_of cfg addresses calls f res /\
    forall st, reconcile cfg addresses st = (extends st (f (counters st)) lines calls, res).
Proof.
  induction addresses as [|a rest IH].
  - exists [], [], (fun c => c), (inr tt). split; [apply quiet_nil|]. split; [constructor|].
    intros st. rewrite reconcile_nil, extends_id. reflexivity.
  - destruct (loop_body_turn cfg a) as (l1 & k1 & f1 & [e|[]] & Hq1 & Ht & H1).
    + exists l1, k1, (fun c => f1 (incr_scanned c)), (inl e).
      split; [exact Hq1|]. split; [by apply run_raise|].
      intros st. rewrite reconcile_cons, H1. reflexivity.
    + destruct IH as (l2 & k2 & f2 & res & Hq2 & Hr & H2).
      exists (l1 ++ l2), (k1 ++ k2), (fun c => f2 (f1 (incr_scanned c))), res.
      split; [by apply quiet_app|]. split; [by apply run_continue|].
      intros st. rewrite reconcile_cons, H1, H2, extends_extends. reflexivity.
Qed.

(** The handler around the loop: the first line, the run, and when the run
    ends without a raise the end-of-run line, the metrics record if metrics
    are on, and the response. *)
Lemma lambda_handler_run event context env now_ms addresses :
  let cfg := config_of event env in
  exists lines calls f res,
    quiet lines /\ run_of cfg addresses calls f res /\
    forall listing_end st,
      let r :=
        lambda_handler event context env now_ms (inr tt) addresses listing_end st in
      counters r.1 = f zero_counters
      /\ release_calls r.1 = release_calls st ++ calls
      /\ match res, listing_end with
         | inl e, _ => r.2 = inl e /\ stdout r.1 = stdout st ++ lines
         | inr _, inl e => r.2 = inl e /\ stdout r.1 = stdout st ++ lines
         | inr _, inr _ =>
             r.2 = inr OK_RESPONSE
             /\ exists tail,
                  stdout r.1
                  = stdout st ++ lines
                    ++ log_event "INFO" "ManageEIPs completed"
                         (summary_fields cfg (f zero_counters)) :: tail
                  /\ if METRICS_ENABLED cfg
                     then exists m, tail = [m] /\ is_metrics_line m = true
                     else tail = []
         end.
Proof.
  intros cfg.
  destruct (reconcile_run cfg addresses) as (lines & calls & f & res & Hq & Hr & H).
  destruct (start_cases cfg context) as (line & Hline & Hs).
  exists (line :: lines), calls, f, res.
  split; [constructor; assumption|]. split; [exact Hr|].
  intros listing_end st r. subst r. rewrite lambda_handler_eq. cbv zeta. fold cfg.
  rewrite Hs, H.
  set (st0 := mkState zero_counters (stdout st ++ [line]) (release_calls st)).
  destruct res as [e|[]]; cbv beta iota.
  - simpl. rewrite <- app_assoc. auto.
  - destruct listing_end as [e|[]].
    + simpl. rewrite <- app_assoc. auto.
    + destruct (finish_returns cfg context now_ms
                  (extends st0 (f (counters st0)) lines calls)) as (tail & -> & _ & Ht).
      simpl. split; [reflexivity|]. split; [reflexivity|]. split; [reflexivity|].
      exists tail. rewrite <- !app_assoc. split; [reflexivity|exact Ht].
Qed.

(** When [boto3.resource('ec2')] raises, the handler has printed its first
    line and nothing else happened. *)
Lemma lambda_handler_no_resource event context env now_ms e addresses listing_end :
  exists line,
    is_report line = false /\
    forall st,
      lambda_handler event context env now_ms (inl e) addresses listing_end st
      = (mkState (counters st) (stdout st ++ [line]) (release_calls st), inl e).
Proof.
  destruct (start_cases (config_of event env) context) as (line & Hline & Hs).
  exists line. split; [exact Hline|]. intros st.
  rewrite lambda_handler_eq. cbv zeta. rewrite Hs. reflexivity.
Qed.

Lemma after_error_continue e :
  after_error e = inr tt -> ¬ fatal e /\ count_error e = bump BErrors.
Proof.
  unfold after_error. destruct (decide (fatal e)) as [|Hn]; [discriminate|].
  intros _. split; [exact Hn|]. destruct e; try (exfalso; apply Hn; exact I). reflexivity.
Qed.

Lemma after_error_raise e e' : after_error e = inl e' -> e' = e /\ fatal e.
Proof.
  unfold after_error. destruct (decide (fatal e)) as [Hf|]; [|discriminate].
  intros [= <-]. split; [reflexivity|exact Hf].
Qed.

(** A turn that goes on bumped one bucket; the release buckets tell the
    mode, and a call was counted as released or as an error. *)
Lemma turn_continue cfg a calls f :
  turn cfg a calls f (inr tt) ->
  exists b,
    f = bump b
    /\ (b = BWouldRelease -> dry_run cfg = true)
    /\ (b = BReleased -> dry_run cfg = false /\ release a = inr tt)
    /\ (b = BReleased -> calls = [allocation_id a])
    /\ (calls ≠ [] -> b = BReleased \/ b = BErrors).
Proof.
  intros H. remember (inr tt) as res eqn:Hres.
  destruct H as [b Hb|Hd Hr|Hd Hr Hok|e Hd Hr He|e He].
  - exists b. split; [reflexivity|].
    assert (Hw : b ≠ BWouldRelease) by (destruct Hb as [->|[->| ->]]; discriminate).
    assert (Hn : b ≠ BReleased) by (destruct Hb as [->|[->| ->]]; discriminate).
    split; [intros E; contradiction|]. split; [intros E; contradiction|].
    split; [intros E; contradiction|]. intros Hc. contradiction.
  - exists BWouldRelease. split; [reflexivity|]. split; [auto|].
    split; [discriminate|]. split; [discriminate|]. intros Hc. contradiction.
  - exists BReleased. split; [reflexivity|]. split; [discriminate|]. auto.
  - apply after_error_continue in Hres as [_ ->].
    exists BErrors. split; [reflexivity|]. split; [discriminate|].
    split; [discriminate|]. split; [discriminate|]. auto.
  - apply after_error_continue in Hres as [_ ->].
    exists BErrors. split; [reflexivity|]. split; [discriminate|].
    split; [discriminate|]. split; [discriminate|]. auto.
Qed.

Lemma turn_raise cfg a calls f e :
  turn cfg a calls f (inl e) -> fatal e /\ f = count_error e.
Proof.
  intros H. remember (inl e) as res eqn:Hres.
  destruct H as [b Hb|Hd Hr|Hd Hr Hok|e' Hd Hr He|e' He]; try discriminate;
    apply after_error_raise in Hres as [-> Hf]; auto.
Qed.

Lemma turn_calls cfg a calls f res :
  turn cfg a calls f res ->
  calls = [] \/ (calls = [allocation_id a] /\ dry_run cfg = false /\ releasable cfg a).
Proof. intros H. destruct H; auto. Qed.

(** *** What a run never does *)

Lemma run_calls cfg l calls f res :
  run_of cfg l calls f res ->
  Forall (fun id => dry_run cfg = false
                    /\ exists a, a ∈ l /\ allocation_id a = id /\ releasable cfg a) calls.
Proof.
  induction 1 as [|a rest calls f calls' g res Ht Hr IH|a rest calls f e Ht].
  - constructor.
  - apply Forall_app. split.
    + destruct (turn_calls _ _ _ _ _ Ht) as [->|(-> & Hd & Hrel)]; [constructor|].
      repeat constructor; [exact Hd|]. exists a. split; [left|auto].
    + eapply Forall_impl; [exact IH|]. intros id (Hd & a' & Hin & Hid & Hrel).
      split; [exact Hd|]. exists a'. split; [by right|auto].
  - destruct (turn_calls _ _ _ _ _ Ht) as [->|(-> & Hd & Hrel)]; [constructor|].
    repeat constructor; [exact Hd|]. exists a. split; [left|auto].
Qed.

(** X8. Under dry-run the handler never calls [release()]: whatever the
    addresses and whatever way the run ends, the calls are those made
    before. *)
Theorem dry_run_never_releases (event : gmap string pyval) (context : option Context)
    (env : gmap string string) (now_ms : Z) (ec2 : exn + unit)
    (addresses : list VpcAddress) (listing_end : exn + unit) st :
  dry_run_of event env = true ->
  release_calls (lambda_handler event context env now_ms ec2 addresses listing_end st).1
  = release_calls st.
Proof.
  intros Hd. destruct ec2 as [e|[]].
  { destruct (lambda_handler_no_resource event context env now_ms e addresses listing_end)
      as (line & _ & ->). reflexivity. }
  destruct (lambda_handler_run event context env now_ms addresses)
    as (lines & calls & f & res & _ & Hr & H).
  destruct (H listing_end st) as (_ & -> & _).
  pose proof (run_calls _ _ _ _ _ Hr) as Hc.
  destruct calls as [|id calls]; [apply app_nil_r|].
  apply Forall_cons in Hc as [[Hf _] _]. simpl in Hf. congruence.
Qed.

Lemma dry_run_never_releases_witness :
  release_calls
    (lambda_handler {["dry_run" := PyStr "TRUE"]} None ∅ 1700000000000 (inr tt)
       (five_addresses ++ [eip_denied]) (inr tt) initial_state).1
  = [].
Proof.
  apply (dry_run_never_releases {["dry_run" := PyStr "TRUE"]} None ∅ 1700000000000 (inr tt)
           (five_addresses ++ [eip_denied]) (inr tt) initial_state).
  vm_compute. reflexivity.
Defined.

(** X9. Every call of [release()] in a run of the handler is on an address
    of the run whose tags read as managed and not protected and whose
    [instance_id] is [None], and the run is not a dry run.  An address that
    is not managed, is protected or is associated is never released. *)
Theorem release_only_when_eligible (event : gmap string pyval) (context : option Context)
    (env : gmap string string) (now_ms : Z) (ec2 : exn + unit)
    (addresses : list VpcAddress) (listing_end : exn + unit) st :
  let cfg := config_of event env in
  exists calls,
    release_calls (lambda_handler event context env now_ms ec2 addresses listing_end st).1
    = release_calls st ++ calls
    /\ calls `sublist_of` map allocation_id addresses
    /\ forall id, id ∈ calls ->
         dry_run cfg = false
         /\ exists a, a ∈ addresses /\ allocation_id a = id /\ releasable cfg a.
Proof.
  intros cfg. destruct ec2 as [e|[]].
  { destruct (lambda_handler_no_resource event context env now_ms e addresses listing_end)
      as (line & _ & ->).
    exists []. simpl. rewrite app_nil_r. split; [reflexivity|].
    split; [apply sublist_nil_l|]. intros id Hin. by apply elem_of_nil in Hin. }
  destruct (lambda_handler_run event context env now_ms addresses)
    as (lines & calls & f & res & _ & Hr & H).
  exists calls. destruct (H listing_end st) as (_ & -> & _). split; [reflexivity|]. split.
  - clear H. fold cfg in Hr.
    induction Hr as [|a rest calls f calls' g res Ht Hr IH|a rest calls f e Ht].
    + constructor.
    + destruct (turn_calls _ _ _ _ _ Ht) as [->|(-> & _)]; simpl.
      * by apply sublist_cons.
      * by apply sublist_skip.
    + destruct (turn_calls _ _ _ _ _ Ht) as [->|(-> & _)]; simpl.
      * apply sublist_nil_l.
      * apply sublist_skip, sublist_nil_l.
  - apply Forall_forall. exact (run_calls _ _ _ _ _ Hr).
Qed.

Lemma release_only_when_eligible_witness :
  exists calls,
    release_calls
      (lambda_handler {["dry_run" := PyBool false]} None ∅ 1700000000000 (inr tt)
         (five_addresses ++ [eip_throttled]) (inr tt) initial_state).1
    = [] ++ calls
    /\ calls = ["eipalloc-05"; "eipalloc-06"].
Proof.
  destruct (release_only_when_eligible {["dry_run" := PyBool false]} None ∅ 1700000000000 (inr tt)
              (five_addresses ++ [eip_throttled]) (inr tt) initial_state) as (calls & H & _).
  exists calls. split; [exact H|]. vm_compute in H. congruence.
Defined.

(** *** Counters over a run *)

Lemma run_counters cfg l calls f res :
  run_of cfg l calls f res ->
  forall c,
    released (f c) <= released c + length calls
    /\ (dry_run cfg = true -> released (f c) = released c)
    /\ (dry_run cfg = false -> would_release (f c) = would_release c)
    /\ (res = inr tt ->
        released c + per_eip_errors c + length calls
        <= released (f c) + per_eip_errors (f c))
    /\ (res = inr tt ->
        scanned (f c) = scanned c + length l
        /\ bucket_sum (f c) = bucket_sum c + length l)
    /\ (forall e, res = inl e ->
        fatal e
        /\ scanned c < scanned (f c) <= scanned c + length l
        /\ scanned (f c) + bucket_sum c
           = scanned c + bucket_sum (f c)
             + match e with ClientError _ _ => 0 | _ => 1 end).
Proof.
  induction 1 as [|a rest calls f calls' g res Ht Hr IH|a rest calls f e Ht]; intros c.
  - simpl. split; [lia|]. split; [auto|]. split; [auto|]. split; [intros _; lia|].
    split; [intros _; lia|]. intros e [=].
  - destruct (turn_continue _ _ _ _ Ht) as (b & -> & Hw & Hrel & Hcalls & Herr).
    specialize (IH (bump b (incr_scanned c))).
    destruct IH as (I1 & I2 & I3 & I4 & I5 & I6).
    assert (Hlen : length calls <= 1
                   /\ (b = BReleased -> length calls = 1)
                   /\ (length calls = 1 -> b = BReleased \/ b = BErrors)).
    { destruct (turn_calls _ _ _ _ _ Ht) as [->|(-> & _)]; simpl.
      - split; [lia|]. split; [|lia]. intros E. specialize (Hcalls E). discriminate.
      - split; [lia|]. split; [reflexivity|]. intros _. apply Herr. discriminate. }
    destruct Hlen as (Hl1 & Hl2 & Hl3).
    rewrite length_app. simpl length.
    split; [|split; [|split; [|split; [|split]]]].
    + destruct b; simpl in *; try lia. specialize (Hl2 eq_refl). lia.
    + intros Hd. rewrite (I2 Hd). destruct b; try reflexivity.
      destruct (Hrel eq_refl) as [Hf _]. congruence.
    + intros Hd. rewrite (I3 Hd). destruct b; try reflexivity.
      specialize (Hw eq_refl). congruence.
    + intros E. specialize (I4 E).
      destruct b; simpl in *; try lia;
        (destruct (Nat.eq_dec (length calls) 1) as [E1|E1];
         [destruct (Hl3 E1); discriminate|lia]).
    + intros E. destruct (I5 E) as [J1 J2].
      rewrite J1, J2, scanned_bump, bucket_sum_bump, bucket_sum_incr_scanned,
        scanned_incr_scanned. lia.
    + intros e E. destruct (I6 e E) as (J1 & J2 & J3). split; [exact J1|].
      rewrite scanned_bump, bucket_sum_bump, bucket_sum_incr_scanned,
        scanned_incr_scanned in *. lia.
  - destruct (turn_raise _ _ _ _ _ Ht) as (Hf & ->).
    assert (Hlen : length calls <= 1)
      by (destruct (turn_calls _ _ _ _ _ Ht) as [->|(-> & _)]; simpl; lia).
    split; [|split; [|split; [|split; [|split]]]]; try discriminate.
    + destruct e; simpl; lia.
    + intros _. destruct e; reflexivity.
    + intros _. destruct e; reflexivity.
    + intros e' [= <-]. split; [exact Hf|].
      destruct e; unfold bucket_sum; simpl; lia.
Qed.

(** X10. In a run of the handler that got its EC2 resource, however the
    listing ends, [released] never exceeds the number of
    calls of [release()] the run made; when the handler returns, every call
    was counted, as released or as an error: the number of calls is at most
    [released + per_eip_errors]. *)
Theorem release_accounting (event : gmap string pyval) (context : option Context)
    (env : gmap string string) (now_ms : Z) (addresses : list VpcAddress)
    (listing_end : exn + unit) st :
  let r := lambda_handler event context env now_ms (inr tt) addresses listing_end st in
  let c := counters r.1 in
  exists calls,
    release_calls r.1 = release_calls st ++ calls
    /\ released c <= length calls
    /\ (r.2 = inr OK_RESPONSE -> length calls <= released c + per_eip_errors c).
Proof.
  intros r c.
  destruct (lambda_handler_run event context env now_ms addresses)
    as (lines & calls & f & res & _ & Hr & H).
  destruct (H listing_end st) as (Hc & Hcalls & Hres). fold r in Hc, Hcalls, Hres.
  destruct (run_counters _ _ _ _ _ Hr zero_counters) as (H1 & _ & _ & H4 & _).
  exists calls. split; [exact Hcalls|]. subst c. rewrite Hc. split; [exact H1|].
  intros Hok. destruct res as [e|[]].
  - destruct Hres as [He _]. congruence.
  - specialize (H4 eq_refl). simpl in H4. lia.
Qed.

Lemma release_accounting_witness :
  let r :=
    lambda_handler {["dry_run" := PyBool false]} None ∅ 1700000000000 (inr tt)
      (five_addresses ++ [eip_throttled]) (inr tt) initial_state in
  r.2 = inr OK_RESPONSE
  /\ exists calls,
       release_calls r.1 = [] ++ calls
       /\ released (counters r.1) <= length calls
       /\ length calls <= released (counters r.1) + per_eip_errors (counters r.1).
Proof.
  intros r. assert (Hok : r.2 = inr OK_RESPONSE) by (vm_compute; reflexivity).
  split; [exact Hok|].
  destruct (release_accounting {["dry_run" := PyBool false]} None ∅ 1700000000000
              (five_addresses ++ [eip_throttled]) (inr tt) initial_state) as (calls & H1 & H2 & H3).
  exists calls. split; [exact H1|]. split; [exact H2|exact (H3 Hok)].
Defined.

(** X11. A run that got its EC2 resource counts releases or would-be
    releases, never both, however the listing ends: under
    dry-run [released] stays 0, and otherwise [would_release] stays 0,
    however the run ends. *)
Theorem release_modes_exclusive (event : gmap string pyval) (context : option Context)
    (env : gmap string string) (now_ms : Z) (addresses : list VpcAddress)
    (listing_end : exn + unit) st :
  let c :=
    counters (lambda_handler event context env now_ms (inr tt) addresses listing_end st).1 in
  (dry_run_of event env = true -> released c = 0)
  /\ (dry_run_of event env = false -> would_release c = 0).
Proof.
  intros c.
  destruct (lambda_handler_run event context env now_ms addresses)
    as (lines & calls & f & res & _ & Hr & H).
  destruct (H listing_end st) as (Hc & _). subst c. rewrite Hc.
  destruct (run_counters _ _ _ _ _ Hr zero_counters) as (_ & H2 & H3 & _).
  split; intros Hd; [exact (H2 Hd)|exact (H3 Hd)].
Qed.

Lemma release_modes_exclusive_witness :
  released
    (counters (lambda_handler {["dry_run" := PyBool true]} None ∅ 1700000000000 (inr tt)
                 five_addresses (inr tt) initial_state).1) = 0
  /\ would_release
       (counters (lambda_handler {["dry_run" := PyBool false]} None ∅ 1700000000000 (inr tt)
                    five_addresses (inr tt) initial_state).1) = 0.
Proof.
  split.
  - apply (proj1 (release_modes_exclusive {["dry_run" := PyBool true]} None ∅ 1700000000000
                    five_addresses (inr tt) initial_state)).
    vm_compute. reflexivity.
  - apply (proj2 (release_modes_exclusive {["dry_run" := PyBool false]} None ∅ 1700000000000
                    five_addresses (inr tt) initial_state)).
    vm_compute. reflexivity.
Defined.

(** X12. When the resource was created and the listing ends without a
    raise, and the handler raises all the same, the raise came from an
    address and [scanned] counts the addresses up to and with the one that
    failed: it is at least 1 and at most the number of addresses.  It is the sum of the six buckets when the exception is a
    [ClientError], which was counted in [per_eip_errors], and one more than
    the sum otherwise, the failing address being in no bucket. *)
Theorem counters_at_abort (event : gmap string pyval) (context : option Context)
    (env : gmap string string) (now_ms : Z) (addresses : list VpcAddress)
    st st' (e : exn) :
  lambda_handler event context env now_ms (inr tt) addresses (inr tt) st = (st', inl e) ->
  let c := counters st' in
  1 <= scanned c <= length addresses
  /\ scanned c
     = skipped_not_managed c + skipped_protected c + associated c
       + would_release c + released c + per_eip_errors c
       + match e with ClientError _ _ => 0 | _ => 1 end.
Proof.
  intros Hrun c.
  destruct (lambda_handler_run event context env now_ms addresses)
    as (lines & calls & f & res & _ & Hr & H).
  destruct (H (inr tt) st) as (Hc & _ & Hres). rewrite Hrun in Hc, Hres.
  simpl in Hc, Hres.
  destruct res as [e'|[]]; [|destruct Hres as [[=] _]].
  destruct Hres as [[= <-] _].
  destruct (run_counters _ _ _ _ _ Hr zero_counters) as (_ & _ & _ & _ & _ & H6).
  destruct (H6 e eq_refl) as (_ & Hs & Hsum).
  subst c. rewrite Hc. unfold bucket_sum in Hsum. simpl in Hs, Hsum. split; lia.
Qed.

Lemma counters_at_abort_witness :
  let r :=
    lambda_handler {["dry_run" := PyBool false]} None ∅ 1700000000000 (inr tt)
      [eip_idle; eip_denied; eip_idle] (inr tt) initial_state in
  r.2 = inl access_denied
  /\ counters r.1 = mkCounters 2 0 0 0 0 1 1
  /\ 1 <= scanned (counters r.1) <= 3.
Proof.
  intros r. split; [vm_compute; reflexivity|]. split; [vm_compute; reflexivity|].
  assert (Hr : r = (r.1, inl access_denied)) by (vm_compute; reflexivity).
  exact (proj1 (counters_at_abort _ _ _ _ _ _ _ _ Hr)).
Defined.

(** An exception that is no [ClientError] leaves the failing address in no
    bucket. *)
Example counters_at_unexpected_abort :
  let r :=
    lambda_handler ∅ None ∅ 1700000000000 (inr tt)
      [eip_other;
       mkVpcAddress "eipalloc-10" (inr managed_tags)
         (inl (PyException "KeyError" "instance_id")) (inr tt)] (inr tt)
      initial_state in
  r.2 = inl (PyException "KeyError" "instance_id")
  /\ counters r.1 = mkCounters 2 1 0 0 0 0 0.
Proof. vm_compute. split; reflexivity. Qed.

(** *** Runs that return *)

Lemma run_completes cfg l calls f res :
  (forall a e, a ∈ l ->
     tags a = inl e \/ instance_id a = inl e \/ release a = inl e -> ¬ fatal e) ->
  run_of cfg l calls f res -> res = inr tt.
Proof.
  intros Hsafe Hr.
  induction Hr as [|a rest calls f calls' g res Ht Hr IH|a rest calls f e Ht].
  - reflexivity.
  - apply IH. intros a' e' Hin. apply Hsafe. by right.
  - exfalso. destruct (turn_raise _ _ _ _ _ Ht) as [Hf _].
    remember (inl e) as res eqn:Hres.
    destruct Ht as [b Hb|Hd Hrel|Hd Hrel Hok|e' Hd Hrel He|e' He]; try discriminate;
      apply after_error_raise in Hres as [-> _].
    + apply (Hsafe a e'); [left|auto|exact Hf].
    + apply (Hsafe a e'); [left| |exact Hf]. destruct He; auto.
Qed.

(** X13. When the resource was created and no read and no call on the
    addresses can raise a fatal exception (all that can be raised are
    [ClientError]s with codes outside the fatal set), errors on single
    addresses never end the run: every address is scanned, and the handler
    returns its response with status 200 when the listing ends without a
    raise, and raises what the listing raised otherwise. *)
Theorem handler_returns_unless_fatal (event : gmap string pyval) (context : option Context)
    (env : gmap string string) (now_ms : Z) (addresses : list VpcAddress)
    (listing_end : exn + unit) st :
  (forall a e, a ∈ addresses ->
     tags a = inl e \/ instance_id a = inl e \/ release a = inl e -> ¬ fatal e) ->
  let r := lambda_handler event context env now_ms (inr tt) addresses listing_end st in
  r.2 = match listing_end with
        | inl e => inl e
        | inr _ => inr OK_RESPONSE
        end
  /\ scanned (counters r.1) = length addresses.
Proof.
  intros Hsafe r.
  destruct (lambda_handler_run event context env now_ms addresses)
    as (lines & calls & f & res & _ & Hr & H).
  destruct (H listing_end st) as (Hc & _ & Hres). fold r in Hc, Hres.
  pose proof (run_completes _ _ _ _ _ Hsafe Hr) as ->.
  split; [destruct listing_end as [e|[]]; exact (proj1 Hres)|]. rewrite Hc.
  destruct (run_counters _ _ _ _ _ Hr zero_counters) as (_ & _ & _ & _ & H5 & _).
  destruct (H5 eq_refl) as [Hs _]. rewrite Hs. reflexivity.
Qed.

Lemma handler_returns_unless_fatal_witness :
  let r :=
    lambda_handler {["dry_run" := PyBool false]} None ∅ 1700000000000 (inr tt)
      [eip_protected; eip_throttled; eip_idle] (inr tt) initial_state in
  r.2 = inr OK_RESPONSE /\ scanned (counters r.1) = 3.
Proof.
  apply (handler_returns_unless_fatal {["dry_run" := PyBool false]} None ∅ 1700000000000
           [eip_protected; eip_throttled; eip_idle] (inr tt) initial_state).
  intros a e Hin.
  apply elem_of_cons in Hin as [->|Hin]; [intros [H|[H|H]]; discriminate H|].
  apply elem_of_cons in Hin as [->|Hin].
  - intros [H|[H|H]]; try discriminate H. injection H as <-. by_decision.
  - apply list_elem_of_singleton in Hin as ->. intros [H|[H|H]]; discriminate H.
Defined.

(** X14. What a run of the handler prints after what was there: first lines
    that are neither the end-of-run line nor the metrics record; then
    nothing more when it raises; when it returns, the end-of-run line with
    the final counters, once, followed by one metrics record if metrics are
    on and by nothing if they are off. *)
Theorem output_shape (event : gmap string pyval) (context : option Context)
    (env : gmap string string) (now_ms : Z) (ec2 : exn + unit)
    (addresses : list VpcAddress) (listing_end : exn + unit) st :
  let cfg := config_of event env in
  let r := lambda_handler event context env now_ms ec2 addresses listing_end st in
  exists lines tail,
    quiet lines
    /\ stdout r.1 = stdout st ++ lines ++ tail
    /\ match r.2 with
       | inl _ => tail = []
       | inr response =>
           response = OK_RESPONSE
           /\ exists records,
                tail
                = log_event "INFO" "ManageEIPs completed" (summary_fields cfg (counters r.1))
                  :: records
                /\ if METRICS_ENABLED cfg
                   then exists m, records = [m] /\ is_metrics_line m = true
                   else records = []
       end.
Proof.
  intros cfg r. destruct ec2 as [e|[]].
  { destruct (lambda_handler_no_resource event context env now_ms e addresses listing_end)
      as (line & Hline & He).
    subst r. rewrite He. exists [line], []. simpl.
    split; [repeat constructor; exact Hline|]. split; reflexivity. }
  destruct (lambda_handler_run event context env now_ms addresses)
    as (lines & calls & f & res & Hq & _ & H).
  destruct (H listing_end st) as (Hc & _ & Hres). fold r cfg in Hc, Hres.
  assert (Hraise : forall e, r.2 = inl e /\ stdout r.1 = stdout st ++ lines ->
            exists lines' tail,
              quiet lines' /\ stdout r.1 = stdout st ++ lines' ++ tail
              /\ match r.2 with
                 | inl _ => tail = []
                 | inr response =>
                     response = OK_RESPONSE
                     /\ exists records,
                          tail
                          = log_event "INFO" "ManageEIPs completed"
                              (summary_fields cfg (counters r.1)) :: records
                          /\ if METRICS_ENABLED cfg
                             then exists m, records = [m] /\ is_metrics_line m = true
                             else records = []
                 end).
  { intros e [He Hout]. exists lines, []. split; [exact Hq|].
    rewrite app_nil_r, He. split; [exact Hout|reflexivity]. }
  destruct res as [e|[]]; [by apply (Hraise e)|].
  destruct listing_end as [e|[]]; [by apply (Hraise e)|].
  destruct Hres as [Hok (tail & Hout & Ht)].
  exists lines, (log_event "INFO" "ManageEIPs completed" (summary_fields cfg (f zero_counters))
                   :: tail).
  split; [exact Hq|]. split; [exact Hout|]. rewrite Hok. split; [reflexivity|].
  exists tail. rewrite Hc. split; [reflexivity|exact Ht].
Qed.

(** The end of a run that returns, with metrics on. *)
Lemma finish_with_metrics cfg context now_ms st :
  METRICS_ENABLED cfg = true ->
  exists ev,
    finish cfg context now_ms st
    = (mkState (counters st)
         (stdout st
          ++ [log_event "INFO" "ManageEIPs completed" (summary_fields cfg (counters st));
              JObj ev])
         (release_calls st),
       inr OK_RESPONSE)
    /\ map (fun k => dict_get k ev)
         ["EIPsScanned"; "EIPsSkippedNotManaged"; "EIPsSkippedProtected"; "EIPsAssociated";
          "EIPsWouldRelease"; "EIPsReleased"; "EIPsPerEipErrors"]
       = map (fun k =>
                field k (log_event "INFO" "ManageEIPs completed"
                           (summary_fields cfg (counters st))))
           ["scanned"; "skipped_not_managed"; "skipped_protected"; "associated";
            "would_release"; "released"; "per_eip_errors"]
    /\ dict_get "FunctionName" ev
       = Some (JStr (match context with
                     | Some ctx => function_name ctx
                     | None => "ManageEIPs"
                     end)).
Proof.
  intros Hm. unfold finish, get_counters. py_unfold. rewrite Hm.
  rewrite emit_emf_metrics_prints. cbv beta iota zeta.
  eexists. split; [simpl; rewrite <- app_assoc; reflexivity|]. split; reflexivity.
Qed.

(** X15. When the handler returns and metrics are on, the last two lines it
    printed are the end-of-run line and the metrics record, and the record
    holds the same seven counts as the line, each under its metric name
    ([scanned] as [EIPsScanned], and so on): the final counters.  The
    [FunctionName] dimension is the function name of the context, or
    [ManageEIPs] without a context. *)
Theorem metrics_match_summary (event : gmap string pyval) (context : option Context)
    (env : gmap string string) (now_ms : Z) (ec2 : exn + unit)
    (addresses : list VpcAddress) (listing_end : exn + unit) st st' response :
  lambda_handler event context env now_ms ec2 addresses listing_end st = (st', inr response) ->
  metrics_enabled_of env = true ->
  let c := counters st' in
  exists earlier summary record,
    stdout st' = earlier ++ [summary; record]
    /\ map (fun k => field k summary)
         ["scanned"; "skipped_not_managed"; "skipped_protected"; "associated";
          "would_release"; "released"; "per_eip_errors"]
       = map (fun n => Some (json_of_nat n))
           [scanned c; skipped_not_managed c; skipped_protected c; associated c;
            would_release c; released c; per_eip_errors c]
    /\ map (fun k => field k record)
         ["EIPsScanned"; "EIPsSkippedNotManaged"; "EIPsSkippedProtected"; "EIPsAssociated";
          "EIPsWouldRelease"; "EIPsReleased"; "EIPsPerEipErrors"]
       = map (fun n => Some (json_of_nat n))
           [scanned c; skipped_not_managed c; skipped_protected c; associated c;
            would_release c; released c; per_eip_errors c]
    /\ field "FunctionName" record
       = Some (JStr (match context with
                     | Some ctx => function_name ctx
                     | None => "ManageEIPs"
                     end)).
Proof.
  intros Hrun Hm c. rewrite lambda_handler_eq in Hrun. cbv zeta in Hrun.
  set (cfg := config_of event env) in *.
  destruct (start cfg context ec2 st) as [st0 [e0|[]]]; [discriminate|].
  destruct (reconcile cfg addresses st0) as [st1 [e1|[]]] eqn:Hl; [discriminate|].
  destruct listing_end as [e2|[]]; [discriminate|].
  destruct (finish_with_metrics cfg context now_ms st1 Hm) as (ev & Hf & Hfields & Hname).
  rewrite Hf in Hrun. injection Hrun as <- <-.
  exists (stdout st1),
    (log_event "INFO" "ManageEIPs completed" (summary_fields cfg (counters st1))), (JObj ev).
  subst c. simpl. split; [reflexivity|]. split; [reflexivity|].
  split; [|exact Hname]. simpl in Hfields. rewrite Hfields. reflexivity.
Qed.

Lemma metrics_match_summary_witness :
  let r :=
    lambda_handler {["dry_run" := PyBool false]} (Some (mkContext "ManageEIPs-prod" "req-1"))
      ∅ 1700000000000 (inr tt) five_addresses (inr tt) initial_state in
  exists earlier summary record,
    stdout r.1 = earlier ++ [summary; record]
    /\ field "released" summary = Some (JNum 1)
    /\ field "EIPsReleased" record = Some (JNum 1)
    /\ field "FunctionName" record = Some (JStr "ManageEIPs-prod").
Proof.
  intros r.
  assert (Hr : r = (r.1, inr OK_RESPONSE)) by (vm_compute; reflexivity).
  destruct (metrics_match_summary _ _ _ _ _ _ _ _ _ _ Hr eq_refl)
    as (earlier & summary & record & H1 & H2 & H3 & H4).
  exists earlier, summary, record. split; [exact H1|].
  injection H2 as _ _ _ _ _ H2 _. injection H3 as _ _ _ _ _ H3 _.
  split; [rewrite H2; vm_compute; reflexivity|].
  split; [rewrite H3; vm_compute; reflexivity|exact H4].
Defined.

(** ** The local test harness *)

(** X16. The event of the local test harness turns dry-run on whatever the
    environment says, so running the file locally never calls [release()],
    and once the EC2 resource is there it counts nothing as released. *)
Theorem test_harness_is_dry_run (env : gmap string string) (now_ms : Z)
    (ec2 : exn + unit) (addresses : list VpcAddress) (listing_end : exn + unit) st :
  dry_run_of test_event env = true
  /\ release_calls (lambda_handler test_event None env now_ms ec2 addresses listing_end st).1
     = release_calls st
  /\ released
       (counters (lambda_handler test_event None env now_ms (inr tt) addresses
                    listing_end st).1)
     = 0.
Proof.
  assert (Hd : dry_run_of test_event env = true).
  { unfold dry_run_of, event_get, test_event. rewrite lookup_singleton_eq. reflexivity. }
  split; [exact Hd|].
  destruct (lambda_handler_run test_event None env now_ms addresses)
    as (lines & calls & f & res & _ & Hr & H).
  destruct (H listing_end st) as (Hc & Hcalls & _). split.
  - destruct ec2 as [e|[]].
    + destruct (lambda_handler_no_resource test_event None env now_ms e addresses
                  listing_end) as (line & _ & ->). reflexivity.
    + rewrite Hcalls. pose proof (run_calls _ _ _ _ _ Hr) as Hk.
      destruct calls as [|id calls]; [apply app_nil_r|].
      apply Forall_cons in Hk as [[Hf _] _]. simpl in Hf. congruence.
  - rewrite Hc.
    destruct (run_counters _ _ _ _ _ Hr zero_counters) as (_ & H2 & _). exact (H2 Hd).
Qed.

(** ** Dry-run and the outcome of [release()] *)

Lemma process_address_with_release cfg outcome a st :
  dry_run cfg = true ->
  process_address cfg (with_release outcome a) st = process_address cfg a st.
Proof. intros Hd. unfold process_address. rewrite Hd. reflexivity. Qed.

Lemma loop_body_with_release cfg outcome a st :
  dry_run cfg = true ->
  loop_body cfg (with_release outcome a) st = loop_body cfg a st.
Proof.
  intros Hd. rewrite !loop_body_eq. unfold try_except.
  rewrite (process_address_with_release cfg outcome a _ Hd). reflexivity.
Qed.

(** X17. Under dry-run the handler does not depend on what [release()] would
    do: with any other outcomes for the calls, the run prints the same lines,
    ends with the same counters and returns or raises the same. *)
Theorem dry_run_ignores_release_outcome (event : gmap string pyval)
    (context : option Context) (env : gmap string string) (now_ms : Z)
    (ec2 : exn + unit) (addresses : list VpcAddress) (listing_end : exn + unit)
    (outcome : VpcAddress -> exn + unit) st :
  dry_run_of event env = true ->
  lambda_handler event context env now_ms ec2
    (map (fun a => with_release (outcome a) a) addresses) listing_end st
  = lambda_handler event context env now_ms ec2 addresses listing_end st.
Proof.
  intros Hd. rewrite !lambda_handler_eq. cbv zeta.
  destruct (start (config_of event env) context ec2 st) as [st0 [e|[]]]; [reflexivity|].
  assert (Hl : forall s,
             reconcile (config_of event env)
               (map (fun a => with_release (outcome a) a) addresses) s
             = reconcile (config_of event env) addresses s).
  { induction addresses as [|a rest IH]; intros s; [reflexivity|].
    simpl map. rewrite !reconcile_cons, loop_body_with_release by exact Hd.
    destruct (loop_body (config_of event env) a s) as [s' [e|[]]]; [reflexivity|apply IH]. }
  rewrite Hl. reflexivity.
Qed.

Lemma dry_run_ignores_release_outcome_witness :
  lambda_handler {["dry_run" := PyBool true]} None ∅ 1700000000000 (inr tt)
    (map (fun a => with_release (inl access_denied) a) five_addresses) (inr tt)
    initial_state
  = lambda_handler {["dry_run" := PyBool true]} None ∅ 1700000000000 (inr tt)
      five_addresses (inr tt) initial_state.
Proof.
  apply (dry_run_ignores_release_outcome {["dry_run" := PyBool true]} None ∅ 1700000000000
           (inr tt) five_addresses (inr tt) (fun _ => inl access_denied) initial_state).
  vm_compute. reflexivity.
Defined.

(** Without dry-run the outcome does matter. *)
Example release_outcome_matters :
  (lambda_handler {["dry_run" := PyBool false]} None ∅ 1700000000000 (inr tt)
     (map (fun a => with_release (inl access_denied) a) five_addresses) (inr tt)
     initial_state).2
  = inl access_denied.
Proof. vm_compute. reflexivity. Qed.

(** ** The order of the addresses *)

Lemma bump_incr_comm b b' c :
  bump b (incr_scanned (bump b' (incr_scanned c)))
  = bump b' (incr_scanned (bump b (incr_scanned c))).
Proof. destruct b, b'; reflexivity. Qed.

(** A loop that ends without a raise ends without one on any reordering of
    the addresses, with the same counters and the same calls in another
    order. *)
Lemma reconcile_permutation cfg l l' :
  l ≡ₚ l' ->
  forall st st1,
    reconcile cfg l st = (st1, inr tt) ->
    exists st2 calls calls',
      reconcile cfg l' st = (st2, inr tt)
      /\ counters st2 = counters st1
      /\ release_calls st1 = release_calls st ++ calls
      /\ release_calls st2 = release_calls st ++ calls'
      /\ calls ≡ₚ calls'.
Proof.
  induction 1 as [|x l l' Hp IH|x y l|l l' l'' Hp1 IH1 Hp2 IH2]; intros st st1 Hrun.
  - exists st1, [], []. rewrite reconcile_nil in Hrun. injection Hrun as <-.
    rewrite reconcile_nil, app_nil_r. auto.
  - rewrite reconcile_cons in Hrun.
    destruct (loop_body_turn cfg x) as (lx & kx & fx & rx & _ & _ & Hx).
    rewrite Hx in Hrun. destruct rx as [e|[]]; [discriminate|].
    destruct (IH _ _ Hrun) as (st2 & calls & calls' & H1 & H2 & H3 & H4 & H5).
    exists st2, (kx ++ calls), (kx ++ calls').
    rewrite reconcile_cons, Hx. split; [exact H1|]. split; [exact H2|].
    rewrite H3, H4. simpl. rewrite <- !app_assoc.
    split; [reflexivity|]. split; [reflexivity|]. by apply Permutation_app_head.
  - destruct (loop_body_turn cfg x) as (lx & kx & fx & rx & _ & Htx & Hx).
    destruct (loop_body_turn cfg y) as (ly & ky & fy & ry & _ & Hty & Hy).
    destruct (reconcile_run cfg l) as (ll & kl & g & rl & _ & _ & Hl).
    rewrite reconcile_cons, Hy in Hrun. destruct ry as [e|[]]; [discriminate|].
    cbv beta iota in Hrun.
    rewrite reconcile_cons, Hx in Hrun. destruct rx as [e|[]]; [discriminate|].
    cbv beta iota in Hrun.
    rewrite Hl in Hrun. destruct rl as [e|[]]; [discriminate|].
    injection Hrun as <-.
    destruct (turn_continue _ _ _ _ Htx) as (bx & -> & _).
    destruct (turn_continue _ _ _ _ Hty) as (by' & -> & _).
    eexists _, (ky ++ kx ++ kl), (kx ++ ky ++ kl).
    rewrite reconcile_cons, Hx. cbv beta iota. rewrite reconcile_cons, Hy. cbv beta iota.
    rewrite Hl. split; [reflexivity|]. simpl.
    rewrite <- !app_assoc. split; [rewrite bump_incr_comm; reflexivity|].
    split; [reflexivity|]. split; [reflexivity|]. apply Permutation_app_swap_app.
  - destruct (IH1 _ _ Hrun) as (st2 & c1 & c2 & H1 & H2 & H3 & H4 & H5).
    destruct (IH2 _ _ H1) as (st3 & c2' & c3 & J1 & J2 & J3 & J4 & J5).
    exists st3, c1, c3. split; [exact J1|]. split; [congruence|].
    split; [exact H3|]. split; [exact J4|].
    rewrite H4 in J3. apply app_inv_head in J3. subst c2'.
    by etrans.
Qed.

(** X18. The counters do not depend on the order in which the addresses
    come: when the handler returns on a list of addresses, it returns on any
    reordering of the list, with the same counters; the calls of [release()]
    it made are the same up to order, and are made in the order of the
    reordered list. *)
Theorem counters_ignore_order (event : gmap string pyval) (context : option Context)
    (env : gmap string string) (now_ms : Z) (ec2 : exn + unit)
    (addresses addresses' : list VpcAddress) (listing_end : exn + unit)
    st st1 response :
  addresses ≡ₚ addresses' ->
  lambda_handler event context env now_ms ec2 addresses listing_end st
  = (st1, inr response) ->
  exists st2 calls calls',
    lambda_handler event context env now_ms ec2 addresses' listing_end st
    = (st2, inr response)
    /\ counters st2 = counters st1
    /\ release_calls st1 = release_calls st ++ calls
    /\ release_calls st2 = release_calls st ++ calls'
    /\ calls ≡ₚ calls'
    /\ calls' `sublist_of` map allocation_id addresses'.
Proof.
  intros Hp Hrun. rewrite lambda_handler_eq in Hrun. rewrite lambda_handler_eq. cbv zeta in *.
  set (cfg := config_of event env) in *.
  destruct (start_cases cfg context) as (line & _ & Hs). rewrite Hs in Hrun |- *.
  destruct ec2 as [e0|[]]; [discriminate|].
  set (st0 := mkState zero_counters (stdout st ++ [line]) (release_calls st)) in *.
  destruct (reconcile cfg addresses st0) as [sa [e|[]]] eqn:Ha; [discriminate|].
  destruct listing_end as [e2|[]]; [discriminate|].
  destruct (reconcile_permutation cfg _ _ Hp _ _ Ha)
    as (sb & calls & calls' & Hb & Hc & Hk & Hk' & Hperm).
  destruct (reconcile_calls cfg addresses' st0) as (c' & Hc' & Hsub).
  rewrite Hb in Hc' |- *. simpl in Hc'. rewrite Hk' in Hc'.
  apply app_inv_head in Hc'. subst c'.
  destruct (finish_returns cfg context now_ms sa) as (ta & Hfa & _).
  destruct (finish_returns cfg context now_ms sb) as (tb & Hfb & _).
  rewrite Hfa in Hrun. injection Hrun as <- <-. rewrite Hfb.
  eexists _, calls, calls'. split; [reflexivity|]. simpl. auto 10.
Qed.

Lemma counters_ignore_order_witness :
  exists st2,
    lambda_handler {["dry_run" := PyBool false]} None ∅ 1700000000000 (inr tt)
      (eip_throttled :: five_addresses) (inr tt) initial_state
    = (st2, inr OK_RESPONSE)
    /\ counters st2 = mkCounters 6 2 1 1 0 1 1
    /\ release_calls st2 = ["eipalloc-06"; "eipalloc-05"].
Proof.
  destruct (counters_ignore_order {["dry_run" := PyBool false]} None ∅ 1700000000000
              (inr tt) (five_addresses ++ [eip_throttled]) (eip_throttled :: five_addresses)
              (inr tt) initial_state
              (lambda_handler {["dry_run" := PyBool false]} None ∅ 1700000000000 (inr tt)
                 (five_addresses ++ [eip_throttled]) (inr tt) initial_state).1
              OK_RESPONSE) as (st2 & calls & calls' & H1 & H2 & _).
  - symmetry. apply Permutation_cons_append.
  - vm_compute. reflexivity.
  - exists st2. split; [exact H1|]. split.
    + rewrite H2. vm_compute. reflexivity.
    + vm_compute in H1. injection H1 as <-. reflexivity.
Defined.
